(** * School Data Finder: search core of react-interview-exercise

    Shallow embedding of [src/utils/maps.ts] (the two normalizers, the
    two search functions) and of the search controller in
    [src/components/Home.tsx] (its two effects, the district selection
    handler and the promise callbacks), with the properties of the
    specification stated and settled against them.

    Modelling conventions.
    - JavaScript values coming out of [JSON.parse] are [jsval].  Objects
      and arrays carry an allocation tag [loc]: [===] on them compares
      references, and every object built by [JSON.parse] is a fresh
      reference.  Numbers are rationals (JSON has no NaN nor infinity).
    - A computation that may throw lives in [except]; an [async]
      function's settled promise is [settled].
    - The network is a function from the request a [fetch] call makes
      to the way that [fetch] settles. *)

From Stdlib Require Import QArith Ascii String List Bool ZArith Lia.
From stdpp Require Import base gmap strings list.
Import ListNotations.

Local Open Scope string_scope.
Local Open Scope list_scope.
Set Warnings "-register-all".

(* ------------------------------------------------------------------ *)
(** ** JavaScript values, exceptions and promises *)

Inductive jsval : Type :=
| JUndef
| JNull
| JBool (b : bool)
| JNum (q : Q)
| JStr (s : string)
| JArr (loc : positive) (elems : list jsval)
| JObj (loc : positive) (fields : list (string * jsval)).

Inductive js_error : Type :=
| TypeError
| SyntaxError
| AbortError.

Inductive except (A : Type) : Type :=
| Ok (a : A)
| Throw (e : js_error).
Arguments Ok {A} a.
Arguments Throw {A} e.

Definition ret {A} (a : A) : except A := Ok a.

Definition bind {A B} (m : except A) (k : A -> except B) : except B :=
  match m with
  | Ok a => k a
  | Throw e => Throw e
  end.

Notation "'let*' x ':=' m 'in' k" := (bind m (fun x => k))
  (at level 200, x name, m at level 100, k at level 200).

(** [try { body } catch (err) { ...; return dflt }] *)
Definition try_catch {A} (m : except A) (dflt : A) : A :=
  match m with
  | Ok a => a
  | Throw _ => dflt
  end.

(** How a promise settles. *)
Inductive settled (A : Type) : Type :=
| Fulfilled (a : A)
| Rejected (e : js_error).
Arguments Fulfilled {A} a.
Arguments Rejected {A} e.

(** JavaScript truthiness: [undefined], [null], [false], [0], [""] are
    falsy, everything else (objects and arrays included) is truthy. *)
Definition truthy (v : jsval) : bool :=
  match v with
  | JUndef | JNull => false
  | JBool b => b
  | JNum q => negb (Z.eqb (Qnum q) 0)
  | JStr s => negb (String.eqb s "")
  | JArr _ _ | JObj _ _ => true
  end.

(** [x || y] on already evaluated operands. *)
Definition js_or (x y : jsval) : jsval := if truthy x then x else y.

(** [x === y] (also [SameValueZero], the [Map] key equality: the two
    differ only on NaN, which JSON cannot produce). *)
Definition strict_eq (x y : jsval) : bool :=
  match x, y with
  | JUndef, JUndef | JNull, JNull => true
  | JBool a, JBool b => Bool.eqb a b
  | JNum p, JNum q => Qeq_bool p q
  | JStr s, JStr t => String.eqb s t
  | JArr l _, JArr l' _ | JObj l _, JObj l' _ => Pos.eqb l l'
  | _, _ => false
  end.

Fixpoint assoc_get (k : string) (fs : list (string * jsval)) : option jsval :=
  match fs with
  | [] => None
  | (k', v) :: fs' => if String.eqb k k' then Some v else assoc_get k fs'
  end.

(** Property read [v.k].  A [JObj] lists the own properties of an
    object built by [JSON.parse], which keeps one entry per key.  It throws a TypeError on [undefined] and
    [null].  None of the property names this code reads is inherited
    from [Object.prototype], [Array.prototype], [String.prototype],
    [Number.prototype] or [Boolean.prototype], so a missing own
    property reads as [undefined]. *)
Definition get (v : jsval) (k : string) : except jsval :=
  match v with
  | JUndef | JNull => Throw TypeError
  | JObj _ fs => ret (match assoc_get k fs with Some x => x | None => JUndef end)
  | _ => ret JUndef
  end.

(** [Array.isArray(v) ? v : []] *)
Definition array_elems (v : jsval) : list jsval :=
  match v with
  | JArr _ es => es
  | _ => []
  end.

(** Evaluate [e1 || e2 || ... || en] from left to right. *)
Fixpoint or_list (es : list (except jsval)) : except jsval :=
  match es with
  | [] => ret JUndef
  | [e] => e
  | e :: es' => let* v := e in if truthy v then ret v else or_list es'
  end.

(* ------------------------------------------------------------------ *)
(** ** Strings: [String.prototype.trim] *)

(** WhiteSpace and LineTerminator code points of ECMAScript within the
    8-bit range of [ascii]: TAB, LF, VT, FF, CR, SPACE, NBSP. *)
Definition is_js_space (c : ascii) : bool :=
  let n := nat_of_ascii c in
  (n =? 9)%nat || (n =? 10)%nat || (n =? 11)%nat || (n =? 12)%nat
  || (n =? 13)%nat || (n =? 32)%nat || (n =? 160)%nat.

Fixpoint trim_start (s : string) : string :=
  match s with
  | EmptyString => EmptyString
  | String c r => if is_js_space c then trim_start r else s
  end.

Fixpoint trim_end (s : string) : string :=
  match s with
  | EmptyString => EmptyString
  | String c r =>
      let r' := trim_end r in
      if String.eqb r' "" && is_js_space c then EmptyString else String c r'
  end.

Definition trim (s : string) : string := trim_end (trim_start s).

(* ------------------------------------------------------------------ *)
(** ** The normalized records ([NCESSchoolFeatureAttributes] and
    [NCESDistrictFeatureAttributes]).  The fields are typed [string] or
    [number] in TypeScript, but the normalizers copy raw values of any
    type into them, so each field holds a [jsval]; a field never
    assigned is [undefined]. *)

Module School.
Record t : Type := mk {
  NCESSCH : jsval; LEAID : jsval; NAME : jsval; OPSTFIPS : jsval;
  STREET : jsval; CITY : jsval; STATE : jsval; ZIP : jsval;
  STFIP : jsval; CNTY : jsval; NMCNTY : jsval; LOCALE : jsval;
  LAT : jsval; LON : jsval; OBJECTID : jsval }.
End School.

Module District.
Record t : Type := mk {
  OBJECTID : jsval; LEAID : jsval; NAME : jsval; OPSTFIPS : jsval;
  LSTREE : jsval; LCITY : jsval; LSTATE : jsval; LZIP : jsval;
  LZIP4 : jsval; STFIP15 : jsval; CNTY15 : jsval; NMCNTY15 : jsval;
  LAT1516 : jsval; LON1516 : jsval; ST : jsval }.
End District.

(* ------------------------------------------------------------------ *)
(** ** [useDebounce(value, ms)] in [src/components/Home.tsx]

    The hook keeps a [debounced] state and an effect on [[value, ms]]
    that schedules [setTimeout(() => setDebounced(value), ms)] and whose
    cleanup clears that timeout.  [Home] calls it on strings with a
    constant [ms].  Its state here: the clock, the [value] of the last
    render, the [debounced] state and the one pending timeout (when it
    fires and the value it publishes). *)
Record debounce : Type := mkDebounce {
  deb_now : N;
  deb_value : string;
  deb_debounced : string;
  deb_timer : option (N * string) }.

Inductive debounce_event : Type :=
| DRender (v : string)   (* a render of the caller with [value = v] *)
| DElapse (dt : N).      (* [dt] milliseconds pass; a due timeout fires *)

Section Debounce.

Variable ms : N.

(** The first render at time 0: [useState(value)], then the effect's
    first run schedules a timeout. *)
Definition debounce_mount (value : string) : debounce :=
  mkDebounce 0 value value (Some (ms, value)).

(** A render with an unchanged [value] ([Object.is]) does not rerun the
    effect; a changed one runs the cleanup ([clearTimeout]) and then the
    effect ([setTimeout]).  A timeout that fires calls [setDebounced],
    whose render leaves the dependencies unchanged. *)
Definition debounce_step (s : debounce) (e : debounce_event) : debounce :=
  match e with
  | DRender v =>
      if String.eqb v (deb_value s) then s
      else mkDebounce (deb_now s) v (deb_debounced s) (Some (deb_now s + ms, v)%N)
  | DElapse dt =>
      let now := (deb_now s + dt)%N in
      match deb_timer s with
      | Some (d, v) =>
          if (d <=? now)%N then mkDebounce now (deb_value s) v None
          else mkDebounce now (deb_value s) (deb_debounced s) (deb_timer s)
      | None => mkDebounce now (deb_value s) (deb_debounced s) None
      end
  end.

Definition debounce_run (s : debounce) (evs : list debounce_event) : debounce :=
  fold_left debounce_step evs s.

End Debounce.

(** The time a list of events lets pass. *)
Fixpoint elapsed (evs : list debounce_event) : N :=
  match evs with
  | [] => 0%N
  | DElapse dt :: evs' => (dt + elapsed evs')%N
  | DRender _ :: evs' => elapsed evs'
  end.

(** What [useDebounce] keeps between renders: a pending timer holds the
    current [value] and fires at most [ms] after the present; with no
    timer pending the debounced value has caught up. *)
Definition debounce_inv (ms : N) (s : debounce) : Prop :=
  match deb_timer s with
  | None => deb_debounced s = deb_value s
  | Some (d, v) => v = deb_value s /\ (d <= deb_now s + ms)%N
  end.

Section Engine.

(** [Number.prototype.toString] for the numbers of this model; only the
    district label and the cache keys stringify values, and none of the
    results below depends on how numbers print. *)
Variable number_to_string : Q -> string.

(** [ToString(v)] as a template literal performs it.  A JSON object
    whose own [toString] key shadows [Object.prototype.toString] holds a
    non-callable value there, and [valueOf] then returns the object
    itself, so [OrdinaryToPrimitive] throws a TypeError.  An array
    stringifies through [join(",")], where [undefined] and [null]
    elements give the empty string. *)
Fixpoint to_string (v : jsval) : except string :=
  match v with
  | JUndef => ret "undefined"
  | JNull => ret "null"
  | JBool b => ret (if b then "true" else "false")
  | JNum q => ret (number_to_string q)
  | JStr s => ret s
  | JArr _ es =>
      (fix join (first : bool) (es : list jsval) : except string :=
         match es with
         | [] => ret ""
         | e :: es' =>
             let* s := (match e with
                        | JUndef | JNull => ret ""
                        | _ => to_string e
                        end) in
             let* rest := join false es' in
             ret (String.append (if first then "" else ",") (String.append s rest))
         end) true es
  | JObj _ fs =>
      match assoc_get "toString" fs with
      | Some _ => Throw TypeError
      | None => ret "[object Object]"
      end
  end.

(** The attribute fields [normalizeSchoolAttributes] reads for the
    coordinates: [a.LAT || a.Y || a.lat || a.latitude] and
    [a.LON || a.X || a.lon || a.longitude]. *)
Definition school_lat_attr (a : jsval) : except jsval :=
  or_list [get a "LAT"; get a "Y"; get a "lat"; get a "latitude"].

Definition school_lon_attr (a : jsval) : except jsval :=
  or_list [get a "LON"; get a "X"; get a "lon"; get a "longitude"].

(** [normalizeSchoolAttributes(a, geometry)]; a missing [geometry]
    argument is [undefined]. *)
Definition normalizeSchoolAttributes (a geometry : jsval) : except School.t :=
  let* NAME := or_list [get a "NAME"; get a "SCH_NAME"; get a "SCHOOL_NAME";
                        get a "SchoolName"; get a "NAME_"; ret (JStr "")] in
  let* STREET := or_list [get a "STREET"; get a "MAIL_STREET"; get a "LSTREET1";
                          get a "ADDRESS"; get a "LSTREET"; ret (JStr "")] in
  let* CITY := or_list [get a "CITY"; get a "MAIL_CITY"; get a "LCITY";
                        get a "TOWN"; ret (JStr "")] in
  let* STATE := or_list [get a "STATE"; get a "ST"; get a "MAIL_STATE";
                         get a "LSTATE"; ret (JStr "")] in
  let* ZIP := or_list [get a "ZIP"; get a "MAIL_ZIP"; get a "LZIP";
                       get a "POSTAL"; get a "ZIP_CODE"; ret (JStr "")] in
  let* NCESSCH := or_list [get a "NCESSCH"; get a "SCHID"; get a "NCES_ID";
                           get a "NCES"; ret (JStr "")] in
  let* LEAID := or_list [get a "LEAID"; get a "LEA_ID"; get a "LEA"; ret (JStr "")] in
  let* OBJECTID := or_list [get a "OBJECTID"; get a "OBJECT_ID"] in
  let* LAT0 := school_lat_attr a in
  let* LON0 := school_lon_attr a in
  let* LATLON :=
    (if (negb (truthy LAT0) || negb (truthy LON0)) && truthy geometry then
       let* gy := get geometry "y" in
       let* gx := get geometry "x" in
       ret (js_or gy LAT0, js_or gx LON0)
     else ret (LAT0, LON0)) in
  let* OPSTFIPS := or_list [get a "OPSTFIPS"; get a "STFIP"] in
  let* CNTY := or_list [get a "CNTY"; get a "COUNTY"] in
  let* NMCNTY := or_list [get a "NMCNTY"; get a "COUNTYNAME"] in
  let* LOCALE := get a "LOCALE" in
  ret (School.mk NCESSCH LEAID NAME OPSTFIPS STREET CITY STATE ZIP
         JUndef CNTY NMCNTY LOCALE (fst LATLON) (snd LATLON) OBJECTID).

(** The synthesized district label [`District ${a.LEAID || 'Unknown'}`]. *)
Definition district_label (a : jsval) : except jsval :=
  let* v := get a "LEAID" in
  let* s := to_string (js_or v (JStr "Unknown")) in
  ret (JStr (String.append "District " s)).

(** [normalizeDistrictAttributes(a)] *)
Definition normalizeDistrictAttributes (a : jsval) : except District.t :=
  let* OBJECTID := or_list [get a "OBJECTID"; get a "OBJECT_ID"] in
  let* LEAID := or_list [get a "LEAID"; get a "LEA_ID"; get a "LEA"; ret (JStr "")] in
  let* NAME := or_list [get a "DISTRICT"; get a "LEA_NAME"; get a "LEANM";
                        district_label a] in
  let* LSTREE := or_list [get a "LSTREE"; get a "LSTREET"; get a "STREET"; ret (JStr "")] in
  let* LCITY := or_list [get a "LCITY"; get a "CITY"; ret (JStr "")] in
  let* LSTATE := or_list [get a "LSTATE"; get a "STATE"; get a "ST"; ret (JStr "")] in
  let* LZIP := or_list [get a "LZIP"; get a "ZIP"; ret (JStr "")] in
  let* LZIP4 := get a "LZIP4" in
  let* ST := or_list [get a "LSTATE"; get a "ST"; get a "STATE"; get a "STATE_CODE";
                      ret (JStr "")] in
  let* LAT1516 := or_list [get a "LAT1516"; get a "LAT"; get a "latitude"] in
  let* LON1516 := or_list [get a "LON1516"; get a "LON"; get a "longitude"] in
  let* STFIP15 := or_list [get a "STFIP15"; get a "STFIP"] in
  let* CNTY15 := or_list [get a "CNTY15"; get a "CNTY"] in
  let* NMCNTY15 := or_list [get a "NMCNTY15"; get a "NMCNTY"] in
  ret (District.mk OBJECTID LEAID NAME JUndef LSTREE LCITY LSTATE LZIP LZIP4
         STFIP15 CNTY15 NMCNTY15 LAT1516 LON1516 ST).

(** The [a.K1 || ... || a.Kn || d] chains of the two normalizers, read
    field by field: the record's field, the attribute names the chain
    reads in order, and its final operand [d] where it has one. *)
Definition field_rule (R : Type) : Type :=
  ((R -> jsval) * list string * option (except jsval))%type.

Definition school_field_rules : list (field_rule School.t) :=
  [(School.NAME, ["NAME"; "SCH_NAME"; "SCHOOL_NAME"; "SchoolName"; "NAME_"], Some (ret (JStr "")));
   (School.STREET, ["STREET"; "MAIL_STREET"; "LSTREET1"; "ADDRESS"; "LSTREET"], Some (ret (JStr "")));
   (School.CITY, ["CITY"; "MAIL_CITY"; "LCITY"; "TOWN"], Some (ret (JStr "")));
   (School.STATE, ["STATE"; "ST"; "MAIL_STATE"; "LSTATE"], Some (ret (JStr "")));
   (School.ZIP, ["ZIP"; "MAIL_ZIP"; "LZIP"; "POSTAL"; "ZIP_CODE"], Some (ret (JStr "")));
   (School.NCESSCH, ["NCESSCH"; "SCHID"; "NCES_ID"; "NCES"], Some (ret (JStr "")));
   (School.LEAID, ["LEAID"; "LEA_ID"; "LEA"], Some (ret (JStr "")));
   (School.OBJECTID, ["OBJECTID"; "OBJECT_ID"], None);
   (School.OPSTFIPS, ["OPSTFIPS"; "STFIP"], None);
   (School.CNTY, ["CNTY"; "COUNTY"], None);
   (School.NMCNTY, ["NMCNTY"; "COUNTYNAME"], None);
   (School.LOCALE, ["LOCALE"], None)].

(** The coordinate chains; the geometry may override them (C8). *)
Definition school_coordinate_rules : list (field_rule School.t) :=
  [(School.LAT, ["LAT"; "Y"; "lat"; "latitude"], None);
   (School.LON, ["LON"; "X"; "lon"; "longitude"], None)].

Definition district_field_rules (a : jsval) : list (field_rule District.t) :=
  [(District.OBJECTID, ["OBJECTID"; "OBJECT_ID"], None);
   (District.LEAID, ["LEAID"; "LEA_ID"; "LEA"], Some (ret (JStr "")));
   (District.NAME, ["DISTRICT"; "LEA_NAME"; "LEANM"], Some (district_label a));
   (District.LSTREE, ["LSTREE"; "LSTREET"; "STREET"], Some (ret (JStr "")));
   (District.LCITY, ["LCITY"; "CITY"], Some (ret (JStr "")));
   (District.LSTATE, ["LSTATE"; "STATE"; "ST"], Some (ret (JStr "")));
   (District.LZIP, ["LZIP"; "ZIP"], Some (ret (JStr "")));
   (District.LZIP4, ["LZIP4"], None);
   (District.ST, ["LSTATE"; "ST"; "STATE"; "STATE_CODE"], Some (ret (JStr "")));
   (District.LAT1516, ["LAT1516"; "LAT"; "latitude"], None);
   (District.LON1516, ["LON1516"; "LON"; "longitude"], None);
   (District.STFIP15, ["STFIP15"; "STFIP"], None);
   (District.CNTY15, ["CNTY15"; "CNTY"], None);
   (District.NMCNTY15, ["NMCNTY15"; "NMCNTY"], None)].

(** Attribute [k] of [a] is missing ([undefined]) or otherwise falsy. *)
Definition reads_falsy (a : jsval) (k : string) : Prop :=
  exists v, get a k = Ok v /\ truthy v = false.

(** The field value [x] follows a chain: a truthy attribute after only
    missing or falsy ones is copied as it is, whatever its type; when
    every attribute is missing or falsy, the final operand gives the
    value, or, where there is none, the last attribute does (so a
    missing field is [undefined]). *)
Definition follows_rule (a x : jsval) (keys : list string) (fb : option (except jsval))
  : Prop :=
  (forall pre k post v, keys = pre ++ k :: post -> Forall (reads_falsy a) pre ->
     get a k = Ok v -> truthy v = true -> x = v)
  /\ (Forall (reads_falsy a) keys ->
      match fb with
      | Some d => d = Ok x
      | None => forall pre k, keys = pre ++ [k] -> get a k = Ok x
      end).

Definition obeys_rules {R : Type} (a : jsval) (r : R) (rules : list (field_rule R)) : Prop :=
  Forall (fun '(f, keys, fb) => follows_rule a (f r) keys fb) rules.

(* ------------------------------------------------------------------ *)
(** ** Requests and how a [fetch] settles *)

(** The two ArcGIS feature services. *)
Inductive source : Type :=
| PrivateSchools   (* Private_School_Locations_Current *)
| PublicSchools.   (* Public_School_Location_201819 *)

(** The URL a search passes to [fetch] is the service's query endpoint
    with these three parameters ([where] through [encodeURIComponent],
    [outFields=*], [outSR=4326], [f=json], [resultRecordCount]). *)
Record request : Type := mkRequest {
  req_source : source;
  req_where : string;
  req_count : Z }.

(** [response.json()]: the parsed body, or the rejection of the body
    read (a SyntaxError on a body that is not JSON, an AbortError when
    the signal fires while the body is still being read). *)
Inductive body_outcome : Type :=
| BodyJson (v : jsval)
| BodyError (e : js_error).

(** How one [fetch(url, { signal })] settles. *)
Inductive fetch_outcome : Type :=
| FNetworkError                         (* rejects with a TypeError *)
| FAbortError                           (* rejects with an AbortError *)
| FResponse (ok : bool) (body : body_outcome).

(** The value of [fetch(...).catch(() => ({ ok: false }))]. *)
Inductive res_value : Type :=
| ResOkFalse
| ResResponse (ok : bool) (body : body_outcome).

Definition fetch_caught (o : fetch_outcome) : res_value :=
  match o with
  | FNetworkError | FAbortError => ResOkFalse
  | FResponse ok b => ResResponse ok b
  end.

(** The literal [{ features: [] }]. *)
Definition empty_features : jsval := JObj 1 [("features", JArr 2 [])].

(** [res.ok ? await (res as Response).json() : { features: [] }] *)
Definition read_json (r : res_value) : except jsval :=
  match r with
  | ResOkFalse => ret empty_features
  | ResResponse false _ => ret empty_features
  | ResResponse true (BodyJson v) => ret v
  | ResResponse true (BodyError e) => Throw e
  end.

(** [Array.isArray(json.features) ? json.features : []] *)
Definition features_of (j : jsval) : except (list jsval) :=
  let* f := get j "features" in ret (array_elems f).

Fixpoint map_except {A B} (f : A -> except B) (l : list A) : except (list B) :=
  match l with
  | [] => ret []
  | x :: l' => let* y := f x in let* ys := map_except f l' in ret (y :: ys)
  end.

(* ------------------------------------------------------------------ *)
(** ** [searchSchoolDistricts] *)

(** [Array.from(districtMap.values()).sort((a, b) =>
    (a.NAME || '').localeCompare(b.NAME || ''))] on an array of at
    least two elements.  The order depends on the locale's collation and
    on the engine's sorting algorithm, and so does whether the
    comparator is ever called on a district whose name is not a string
    (which throws a TypeError): it is left abstract. *)
Variable sort_by_name : list District.t -> except (list District.t).

(** Whatever the order, [Array.prototype.sort] returns a permutation of
    the array it sorts. *)
Hypothesis sort_by_name_permutes :
  forall l l', sort_by_name l = Ok l' -> Permutation l l'.

(** An array of fewer than two elements is returned as it is, without
    calling the comparator. *)
Definition js_sort_districts (l : list District.t) : except (list District.t) :=
  match l with
  | [] | [_] => ret l
  | _ => sort_by_name l
  end.

(** [districtMap.has(k)]: keys compare with [SameValueZero]. *)
Definition map_has (k : jsval) (m : list (jsval * District.t)) : bool :=
  existsb (fun kv => strict_eq (fst kv) k) m.

(** The [allSchools.forEach] loop that fills [districtMap], kept in
    insertion order. *)
Fixpoint district_map (fs : list jsval) (m : list (jsval * District.t))
  : except (list (jsval * District.t)) :=
  match fs with
  | [] => ret m
  | f :: fs' =>
      let* attributes := get f "attributes" in
      let attrs := js_or attributes f in
      let* leaId := or_list [get attrs "LEAID"; get attrs "LEA_ID"; get attrs "LEA"] in
      let* m' :=
        (if truthy leaId && negb (map_has leaId m) then
           let* district := normalizeDistrictAttributes attrs in
           ret (m ++ [(leaId, district)])
         else ret m) in
      district_map fs' m'
  end.

Definition district_where (q : string) : string :=
  String.append "UPPER(NAME) LIKE UPPER('%" (String.append q "%')").

Definition district_requests (q : string) : list request :=
  [mkRequest PrivateSchools (district_where q) 500;
   mkRequest PublicSchools (district_where q) 500].

(** The body of the [try] block once the two fetches are issued. *)
Definition districts_after_fetch (net : request -> fetch_outcome) (q : string)
  : except (list District.t) :=
  let privateRes := fetch_caught (net (mkRequest PrivateSchools (district_where q) 500)) in
  let publicRes := fetch_caught (net (mkRequest PublicSchools (district_where q) 500)) in
  let* privateJson := read_json privateRes in
  let* publicJson := read_json publicRes in
  let* privateFeatures := features_of privateJson in
  let* publicFeatures := features_of publicJson in
  let* districtMap := district_map (privateFeatures ++ publicFeatures) [] in
  js_sort_districts (map snd districtMap).

(** [searchSchoolDistricts(name, signal)]: the fetches it issues and how
    its promise settles.  The [catch] clause logs non-abort errors and
    returns [[]]. *)
Definition searchSchoolDistricts (name : string) (net : request -> fetch_outcome)
  : list request * settled (list District.t) :=
  if String.eqb name "" || (String.length (trim name) <? 2)%nat then ([], Fulfilled [])
  else (district_requests (trim name),
        Fulfilled (try_catch (districts_after_fetch net (trim name)) [])).

(* ------------------------------------------------------------------ *)
(** ** [searchSchools] *)

Fixpoint find_index {A} (p : A -> bool) (l : list A) : option nat :=
  match l with
  | [] => None
  | x :: l' => if p x then Some 0%nat else option_map S (find_index p l')
  end.

(** [self.findIndex(p) === index] *)
Definition first_index_is {A} (p : A -> bool) (self : list A) (index : nat) : bool :=
  match find_index p self with
  | Some j => Nat.eqb j index
  | None => false
  end.

(** The [normalized.filter((school, index, self) => ...)] predicate. *)
Definition keep_school (self : list School.t) (school : School.t) (index : nat) : bool :=
  if truthy (School.NCESSCH school) then
    first_index_is (fun s => strict_eq (School.NCESSCH s) (School.NCESSCH school)) self index
  else
    first_index_is (fun s => strict_eq (School.NAME s) (School.NAME school)
                             && strict_eq (School.CITY s) (School.CITY school)
                             && strict_eq (School.STATE s) (School.STATE school)) self index.

Fixpoint filter_from (self : list School.t) (rest : list School.t) (index : nat)
  : list School.t :=
  match rest with
  | [] => []
  | school :: rest' =>
      if keep_school self school index
      then school :: filter_from self rest' (S index)
      else filter_from self rest' (S index)
  end.

(** [const unique = normalized.filter(...)] *)
Definition unique_schools (normalized : list School.t) : list School.t :=
  filter_from normalized normalized 0.

(** [normalizeSchoolAttributes(f.attributes || f, f.geometry)] *)
Definition normalize_feature (f : jsval) : except School.t :=
  let* attributes := get f "attributes" in
  let* geometry := get f "geometry" in
  normalizeSchoolAttributes (js_or attributes f) geometry.

(** The [whereClause] of [searchSchools]; the district filter is
    interpolated into a template, which can throw. *)
Definition school_where (name : string) (districtLEAID : jsval) : except string :=
  let nameQuery := trim name in
  let whereClause :=
    if negb (String.eqb nameQuery "") && (2 <=? String.length nameQuery)%nat
    then district_where nameQuery else "1=1" in
  if truthy districtLEAID then
    let* s := to_string districtLEAID in
    ret (String.append whereClause (String.append " AND LEAID = '" (String.append s "'")))
  else ret whereClause.

Definition schools_after_fetch (net : request -> fetch_outcome) (whereClause : string)
  : except (list School.t) :=
  let privateRes := fetch_caught (net (mkRequest PrivateSchools whereClause 100)) in
  let publicRes := fetch_caught (net (mkRequest PublicSchools whereClause 100)) in
  let* privateJson := read_json privateRes in
  let* publicJson := read_json publicRes in
  let* privateFeatures := features_of privateJson in
  let* publicFeatures := features_of publicJson in
  let* normalized := map_except normalize_feature (privateFeatures ++ publicFeatures) in
  ret (unique_schools normalized).

(** [searchSchools(name, districtLEAID, signal)]; a missing district
    filter is [undefined]. *)
Definition searchSchools (name : string) (districtLEAID : jsval)
  (net : request -> fetch_outcome) : list request * settled (list School.t) :=
  match school_where name districtLEAID with
  | Throw _ => ([], Fulfilled [])
  | Ok whereClause =>
      ([mkRequest PrivateSchools whereClause 100; mkRequest PublicSchools whereClause 100],
       Fulfilled (try_catch (schools_after_fetch net whereClause) []))
  end.


(* ------------------------------------------------------------------ *)
(** ** The controller ([Home]) *)

(** The query a pending promise belongs to, with what its callbacks
    captured: the trimmed text, and for a school query the district
    filter, the cache key and the [selectedSchool] of the render whose
    effect issued it. *)
Inductive query : Type :=
| QDistrict (q : string)
| QSchool (q : string) (lea : jsval) (cacheKey : string) (captured : option School.t).

(** A search promise not settled yet, with the [AbortController] that
    issued it ([p_id]) and whether that controller was aborted. *)
Record pending : Type := mkPending {
  p_id : nat;
  p_query : query;
  p_aborted : bool }.

(** The component's state: its [useState] values (the debounced texts
    are the values [useDebounce] returns), the two [useRef] caches, the
    cleanup each effect left for its next run, and the promises in
    flight.  The raw input texts only feed [useDebounce] and are not
    kept. *)
Record home : Type := mkHome {
  debouncedDistrictQuery : string;
  debouncedSchoolQuery : string;
  districts : list District.t;
  schools : list School.t;
  selectedDistrict : option District.t;
  selectedSchool : option School.t;
  loadingDistricts : bool;
  loadingSchools : bool;
  districtCache : gmap string (list District.t);
  schoolCache : gmap string (list School.t);
  districtCleanup : option nat;
  schoolCleanup : option nat;
  inflight : list pending;
  nextController : nat }.

Definition set_debouncedDistrictQuery (v : string) (st : home) : home :=
  mkHome v (debouncedSchoolQuery st) (districts st) (schools st) (selectedDistrict st) (selectedSchool st) (loadingDistricts st) (loadingSchools st) (districtCache st) (schoolCache st) (districtCleanup st) (schoolCleanup st) (inflight st) (nextController st).
Definition set_debouncedSchoolQuery (v : string) (st : home) : home :=
  mkHome (debouncedDistrictQuery st) v (districts st) (schools st) (selectedDistrict st) (selectedSchool st) (loadingDistricts st) (loadingSchools st) (districtCache st) (schoolCache st) (districtCleanup st) (schoolCleanup st) (inflight st) (nextController st).
Definition set_districts (v : list District.t) (st : home) : home :=
  mkHome (debouncedDistrictQuery st) (debouncedSchoolQuery st) v (schools st) (selectedDistrict st) (selectedSchool st) (loadingDistricts st) (loadingSchools st) (districtCache st) (schoolCache st) (districtCleanup st) (schoolCleanup st) (inflight st) (nextController st).
Definition set_schools (v : list School.t) (st : home) : home :=
  mkHome (debouncedDistrictQuery st) (debouncedSchoolQuery st) (districts st) v (selectedDistrict st) (selectedSchool st) (loadingDistricts st) (loadingSchools st) (districtCache st) (schoolCache st) (districtCleanup st) (schoolCleanup st) (inflight st) (nextController st).
Definition set_selectedDistrict (v : option District.t) (st : home) : home :=
  mkHome (debouncedDistrictQuery st) (debouncedSchoolQuery st) (districts st) (schools st) v (selectedSchool st) (loadingDistricts st) (loadingSchools st) (districtCache st) (schoolCache st) (districtCleanup st) (schoolCleanup st) (inflight st) (nextController st).
Definition set_selectedSchool (v : option School.t) (st : home) : home :=
  mkHome (debouncedDistrictQuery st) (debouncedSchoolQuery st) (districts st) (schools st) (selectedDistrict st) v (loadingDistricts st) (loadingSchools st) (districtCache st) (schoolCache st) (districtCleanup st) (schoolCleanup st) (inflight st) (nextController st).
Definition set_loadingDistricts (v : bool) (st : home) : home :=
  mkHome (debouncedDistrictQuery st) (debouncedSchoolQuery st) (districts st) (schools st) (selectedDistrict st) (selectedSchool st) v (loadingSchools st) (districtCache st) (schoolCache st) (districtCleanup st) (schoolCleanup st) (inflight st) (nextController st).
Definition set_loadingSchools (v : bool) (st : home) : home :=
  mkHome (debouncedDistrictQuery st) (debouncedSchoolQuery st) (districts st) (schools st) (selectedDistrict st) (selectedSchool st) (loadingDistricts st) v (districtCache st) (schoolCache st) (districtCleanup st) (schoolCleanup st) (inflight st) (nextController st).
Definition set_districtCache (v : gmap string (list District.t)) (st : home) : home :=
  mkHome (debouncedDistrictQuery st) (debouncedSchoolQuery st) (districts st) (schools st) (selectedDistrict st) (selectedSchool st) (loadingDistricts st) (loadingSchools st) v (schoolCache st) (districtCleanup st) (schoolCleanup st) (inflight st) (nextController st).
Definition set_schoolCache (v : gmap string (list School.t)) (st : home) : home :=
  mkHome (debouncedDistrictQuery st) (debouncedSchoolQuery st) (districts st) (schools st) (selectedDistrict st) (selectedSchool st) (loadingDistricts st) (loadingSchools st) (districtCache st) v (districtCleanup st) (schoolCleanup st) (inflight st) (nextController st).
Definition set_districtCleanup (v : option nat) (st : home) : home :=
  mkHome (debouncedDistrictQuery st) (debouncedSchoolQuery st) (districts st) (schools st) (selectedDistrict st) (selectedSchool st) (loadingDistricts st) (loadingSchools st) (districtCache st) (schoolCache st) v (schoolCleanup st) (inflight st) (nextController st).
Definition set_schoolCleanup (v : option nat) (st : home) : home :=
  mkHome (debouncedDistrictQuery st) (debouncedSchoolQuery st) (districts st) (schools st) (selectedDistrict st) (selectedSchool st) (loadingDistricts st) (loadingSchools st) (districtCache st) (schoolCache st) (districtCleanup st) v (inflight st) (nextController st).
Definition set_inflight (v : list pending) (st : home) : home :=
  mkHome (debouncedDistrictQuery st) (debouncedSchoolQuery st) (districts st) (schools st) (selectedDistrict st) (selectedSchool st) (loadingDistricts st) (loadingSchools st) (districtCache st) (schoolCache st) (districtCleanup st) (schoolCleanup st) v (nextController st).
Definition set_nextController (v : nat) (st : home) : home :=
  mkHome (debouncedDistrictQuery st) (debouncedSchoolQuery st) (districts st) (schools st) (selectedDistrict st) (selectedSchool st) (loadingDistricts st) (loadingSchools st) (districtCache st) (schoolCache st) (districtCleanup st) (schoolCleanup st) (inflight st) v.

(** [controller.abort()]: a promise of that controller that has not
    settled yet will see its signal aborted. *)
Definition abort_controller (id : nat) (ps : list pending) : list pending :=
  map (fun p => if Nat.eqb (p_id p) id then mkPending (p_id p) (p_query p) true else p) ps.

(** The cleanup a previous run of an effect returned, if any. *)
Definition run_cleanup (c : option nat) (ps : list pending) : list pending :=
  match c with
  | Some id => abort_controller id ps
  | None => ps
  end.

Definition too_short (q : string) : bool :=
  String.eqb q "" || (String.length q <? 2)%nat.

(** The members a plain object [{}] inherits from [Object.prototype].
    Reading [obj[k]] for one of these names, when [obj] has no own
    property [k], gives a function (for [__proto__], the prototype
    object itself): a truthy value that is not an array. *)
Definition object_prototype_members : list string :=
  ["constructor"; "hasOwnProperty"; "isPrototypeOf"; "propertyIsEnumerable";
   "toLocaleString"; "toString"; "valueOf"; "__proto__"; "__defineGetter__";
   "__defineSetter__"; "__lookupGetter__"; "__lookupSetter__"].

Definition inherited_member (k : string) : bool :=
  existsb (String.eqb k) object_prototype_members.

(** A run of the district [useEffect]: the cleanup of its previous run,
    then its body.  [districtCache.current] is a plain object: an own
    entry is a cached list (an array, truthy even when empty); with no
    own entry, a query naming an inherited member finds that member,
    truthy, so the effect passes it to [setDistricts] and issues no
    search, and the next render throws a TypeError at [districts.map];
    any other query finds [undefined]. *)
Definition district_effect (st0 : home) : except home :=
  let st := set_districtCleanup None
              (set_inflight (run_cleanup (districtCleanup st0) (inflight st0)) st0) in
  let q := trim (debouncedDistrictQuery st) in
  if too_short q then
    ret (set_selectedSchool None (set_selectedDistrict None (set_districts [] st)))
  else
    match districtCache st !! q with
    | Some cached => ret (set_districts cached st)
    | None =>
        if inherited_member q then Throw TypeError else
        let id := nextController st in
        ret (set_districtCleanup (Some id)
              (set_nextController (S id)
                (set_inflight (inflight st ++ [mkPending id (QDistrict q) false])
                  (set_loadingDistricts true st))))
    end.

(** A run of the school [useEffect].  Its cache keys contain "-", so
    [schoolCache.current[cacheKey]] never finds an inherited member of
    the plain object. *)
Definition school_effect (st0 : home) : except home :=
  let st := set_schoolCleanup None
              (set_inflight (run_cleanup (schoolCleanup st0) (inflight st0)) st0) in
  let q := trim (debouncedSchoolQuery st) in
  if too_short q && negb (bool_decide (is_Some (selectedDistrict st))) then
    ret (set_selectedSchool None (set_schools [] st))
  else
    let lea := match selectedDistrict st with
               | Some d => District.LEAID d
               | None => JUndef
               end in
    let* k := to_string (js_or lea (JStr "all")) in
    let cacheKey := String.append k (String.append "-" q) in
    match schoolCache st !! cacheKey with
    | Some cached => ret (set_schools cached st)
    | None =>
        let id := nextController st in
        ret (set_schoolCleanup (Some id)
              (set_nextController (S id)
                (set_inflight (inflight st ++ [mkPending id (QSchool q lea cacheKey (selectedSchool st)) false])
                  (set_loadingSchools true st))))
    end.

(** How a request's fetches settle once its controller was aborted while
    they were in flight: a fetch still waiting for its response rejects
    with an AbortError, and a response already received has its body
    read rejected with an AbortError. *)
Definition after_abort (o : fetch_outcome) : fetch_outcome :=
  match o with
  | FResponse ok _ => FResponse ok (BodyError AbortError)
  | _ => FAbortError
  end.

(** The network seen by a pending search: [o1] for the private-school
    service, [o2] for the public one. *)
Definition net_of (aborted : bool) (o1 o2 : fetch_outcome) (r : request) : fetch_outcome :=
  let o := match req_source r with
           | PrivateSchools => o1
           | PublicSchools => o2
           end in
  if aborted then after_abort o else o.

(** The [.then] callback of the district search. *)
Definition district_then (q : string) (res : list District.t) (st : home) : home :=
  set_districtCache (<[q := res]> (districtCache st)) (set_districts res st).

(** [res.find(s => s.NCESSCH === selectedSchool.NCESSCH ||
    (s.NAME === selectedSchool.NAME && s.CITY === selectedSchool.CITY))];
    a found element is an object, hence truthy. *)
Definition school_still_exists (sel : School.t) (res : list School.t) : bool :=
  existsb (fun s => strict_eq (School.NCESSCH s) (School.NCESSCH sel)
                    || (strict_eq (School.NAME s) (School.NAME sel)
                        && strict_eq (School.CITY s) (School.CITY sel))) res.

(** The [.then] callback of the school search. *)
Definition school_then (cacheKey : string) (captured : option School.t)
  (res : list School.t) (st0 : home) : home :=
  let st := set_schoolCache (<[cacheKey := res]> (schoolCache st0)) (set_schools res st0) in
  match captured with
  | Some sel => if school_still_exists sel res then st else set_selectedSchool None st
  | None => st
  end.

(** Promise [id] settles, its two fetches having settled as [o1] and
    [o2] (as seen through the abort, if its controller was aborted);
    then [.then] or [.catch], then [.finally]. *)
Definition settle (id : nat) (o1 o2 : fetch_outcome) (st0 : home) : except home :=
  match find (fun p => Nat.eqb (p_id p) id) (inflight st0) with
  | None => ret st0
  | Some p =>
      let st := set_inflight (filter (fun p => negb (Nat.eqb (p_id p) id)) (inflight st0)) st0 in
      let net := net_of (p_aborted p) o1 o2 in
      match p_query p with
      | QDistrict q =>
          match snd (searchSchoolDistricts q net) with
          | Fulfilled res => ret (set_loadingDistricts false (district_then q res st))
          | Rejected _ => ret (set_loadingDistricts false st)
          end
      | QSchool q lea cacheKey captured =>
          match snd (searchSchools q lea net) with
          | Fulfilled res => ret (set_loadingSchools false (school_then cacheKey captured res st))
          | Rejected _ => ret (set_loadingSchools false st)
          end
      end
  end.

(** [handleDistrictChange] with [e.target.value = leaId]. *)
Definition handleDistrictChange (leaId : string) (st0 : home) : except home :=
  let sel := if String.eqb leaId "" then None
             else find (fun d => strict_eq (District.LEAID d) (JStr leaId)) (districts st0) in
  let st := set_selectedSchool None (set_selectedDistrict sel st0) in
  let currentQuery := trim (debouncedSchoolQuery st) in
  let newCacheKey :=
    String.append (if String.eqb leaId "" then "all" else leaId)
                  (String.append "-" currentQuery) in
  ret (set_schoolCache (delete newCacheKey (schoolCache st)) st).

(** What happens to the component, one event at a time.  An effect runs
    when React finds one of its dependencies changed after a render;
    the events of a trace are in the order they happen. *)
Inductive event : Type :=
| DebounceDistrict (q : string)    (* [useDebounce] publishes the district text *)
| DebounceSchool (q : string)      (* [useDebounce] publishes the school text *)
| SchoolInput                      (* school input [onChange]: [setSelectedSchool(null)] *)
| DistrictEffect
| SchoolEffect
| DistrictChange (leaId : string)  (* district [Select] [onChange] *)
| SelectSchool (s : School.t)      (* a school card [onClick] *)
| Settle (id : nat) (o1 o2 : fetch_outcome).

Definition step (st : home) (ev : event) : except home :=
  match ev with
  | DebounceDistrict q => ret (set_debouncedDistrictQuery q st)
  | DebounceSchool q => ret (set_debouncedSchoolQuery q st)
  | SchoolInput => ret (set_selectedSchool None st)
  | DistrictEffect => district_effect st
  | SchoolEffect => school_effect st
  | DistrictChange leaId => handleDistrictChange leaId st
  | SelectSchool s => ret (set_selectedSchool (Some s) st)
  | Settle id o1 o2 => settle id o1 o2 st
  end.

Fixpoint run (st : home) (evs : list event) : except home :=
  match evs with
  | [] => ret st
  | ev :: evs' => let* st' := step st ev in run st' evs'
  end.

(** The state of the first render. *)
Definition initial_home : home :=
  mkHome "" "" [] [] None None false false ∅ ∅ None None [] 0.


(* ------------------------------------------------------------------ *)
(** ** Notions the properties are stated with *)

(** Two school records, [x] before [y] in a list, that deduplication
    would count as the same school: [x] has a non-empty identifier that
    [y] shares, or [y] lacks one and has [x]'s name, city and state. *)
Definition same_school_pair (x y : School.t) : Prop :=
  (truthy (School.NCESSCH x) = true
   /\ strict_eq (School.NCESSCH x) (School.NCESSCH y) = true)
  \/ (truthy (School.NCESSCH y) = false
      /\ strict_eq (School.NAME x) (School.NAME y) = true
      /\ strict_eq (School.CITY x) (School.CITY y) = true
      /\ strict_eq (School.STATE x) (School.STATE y) = true).

(** The [findIndex] predicate the deduplication filter uses for
    [school]: [s.NCESSCH === school.NCESSCH] when [school] has an
    identifier, the name, city and state otherwise. *)
Definition school_dup (school s : School.t) : bool :=
  if truthy (School.NCESSCH school) then
    strict_eq (School.NCESSCH s) (School.NCESSCH school)
  else
    strict_eq (School.NAME s) (School.NAME school)
    && strict_eq (School.CITY s) (School.CITY school)
    && strict_eq (School.STATE s) (School.STATE school).

(** Deduplication read as a left-to-right scan: a record is kept iff no
    record before it in the list ([seen], kept or not) is its duplicate. *)
Fixpoint keep_first_seen (seen rest : list School.t) : list School.t :=
  match rest with
  | [] => []
  | x :: rest' =>
      if existsb (school_dup x) seen then keep_first_seen (seen ++ [x]) rest'
      else x :: keep_first_seen (seen ++ [x]) rest'
  end.

(** A list of districts whose identifiers are all present and pairwise
    different under [===]. *)
Definition distinct_leaids (ds : list District.t) : Prop :=
  ForallOrdPairs (fun d1 d2 => strict_eq (District.LEAID d1) (District.LEAID d2) = false) ds
  /\ Forall (fun d => truthy (District.LEAID d) = true) ds.

(** Whether a pending search is a district search. *)
Definition is_district_query (q : query) : bool :=
  match q with
  | QDistrict _ => true
  | QSchool _ _ _ _ => false
  end.

(** The cleanup waiting for the next run of the effect that issues
    searches of the kind of [q]. *)
Definition cleanup_for (st : home) (q : query) : option nat :=
  if is_district_query q then districtCleanup st else schoolCleanup st.

(** The bookkeeping of the two effects' [AbortController]s: the pending
    searches have distinct controllers, all issued before
    [nextController]; a search whose controller was not aborted is the
    one the pending cleanup of its effect aborts; a spinner is on only
    while a search of its kind is in flight. *)
Definition controllers_ok (st : home) : Prop :=
  List.NoDup (map p_id (inflight st))
  /\ (forall p, In p (inflight st) -> (p_id p < nextController st)%nat)
  /\ (forall p, In p (inflight st) -> p_aborted p = false ->
        cleanup_for st (p_query p) = Some (p_id p))
  /\ (loadingDistricts st = true ->
        exists p, In p (inflight st) /\ is_district_query (p_query p) = true)
  /\ (loadingSchools st = true ->
        exists p, In p (inflight st) /\ is_district_query (p_query p) = false).

(** The [value] of a district's [<option>]: [d.LEAID || ""], as the
    string the DOM keeps and [handleDistrictChange] receives as
    [e.target.value]. *)
Definition district_option_value (d : District.t) : except string :=
  to_string (js_or (District.LEAID d) (JStr "")).

(** The district lists the component keeps, the one it shows and the
    cached ones, have distinct identifiers. *)
Definition districts_ok (st : home) : Prop :=
  distinct_leaids (districts st)
  /\ forall q ds, districtCache st !! q = Some ds -> distinct_leaids ds.

(** The district queries the component works with, those of the
    pending district searches and the keys of the district cache, are
    trimmed and at least two characters long. *)
Definition district_queries_ok (st : home) : Prop :=
  (forall p q, In p (inflight st) -> p_query p = QDistrict q ->
     too_short q = false /\ trim q = q)
  /\ (forall q ds, districtCache st !! q = Some ds -> too_short q = false /\ trim q = q).

(** The school lists the component keeps, the one it shows and the
    cached ones, hold no two records deduplication would merge. *)
Definition schools_ok (st : home) : Prop :=
  ForallOrdPairs (fun x y => ~ same_school_pair x y) (schools st)
  /\ forall k ss, schoolCache st !! k = Some ss ->
       ForallOrdPairs (fun x y => ~ same_school_pair x y) ss.

(** The state a trace leads to from the first render, when none of its
    steps throws. *)
Definition reached (evs : list event) : home :=
  match run initial_home evs with
  | Ok st => st
  | Throw _ => initial_home
  end.

(** A source that answered [{ features: [] }]. *)
Definition as_empty_answer (o : fetch_outcome) : fetch_outcome :=
  match o with
  | FNetworkError | FAbortError | FResponse false _ => FResponse true (BodyJson empty_features)
  | FResponse true _ => o
  end.


(** Sample answers and records used by the concrete scenarios below. *)
Definition sample_answer (loc : positive) (fs : list jsval) : fetch_outcome :=
  FResponse true (BodyJson (JObj loc [("features", JArr (loc + 1) fs)])).

Definition two_sources (o1 o2 : fetch_outcome) (r : request) : fetch_outcome :=
  match req_source r with
  | PrivateSchools => o1
  | PublicSchools => o2
  end.

Definition abbey_feature : jsval :=
  JObj 10 [("attributes", JObj 11 [("LEAID", JStr "0601"); ("DISTRICT", JStr "Abbey")])].

Definition abbey_district : District.t :=
  District.mk JUndef (JStr "0601") (JStr "Abbey") JUndef (JStr "") (JStr "") (JStr "")
    (JStr "") JUndef JUndef JUndef JUndef JUndef JUndef (JStr "").

(** The user types "ab", the search runs and settles; the user types
    "abc" (a new search, the previous effect's cleanup aborting nothing
    pending), then deletes the "c": the effect for "ab" aborts the
    "abc" search and serves "ab" from the cache; the aborted search
    then settles, its services having answered. *)
Definition stale_district_trace : list event :=
  [DebounceDistrict "ab"; DistrictEffect;
   Settle 0 (sample_answer 20 [abbey_feature]) (sample_answer 22 []);
   DebounceDistrict "abc"; DistrictEffect;
   DebounceDistrict "ab"; DistrictEffect;
   Settle 1 (sample_answer 30 [abbey_feature]) (sample_answer 32 [])].

(** The user types "ab", then "abc" before the first search settled:
    the second run of the district effect aborts the first search. *)
Definition two_district_searches : list event :=
  [DebounceDistrict "ab"; DistrictEffect; DebounceDistrict "abc"; DistrictEffect].

(** The services answer the search for "ab" with one district. *)
Definition abbey_answers : list event :=
  [DebounceDistrict "ab"; DistrictEffect;
   Settle 0 (sample_answer 20 [abbey_feature]) (sample_answer 22 [])].

(** A second feature for district "0601", under another name, and a
    feature for district "0602". *)
Definition abbey_twin_feature : jsval :=
  JObj 12 [("attributes", JObj 13 [("LEAID", JStr "0601"); ("DISTRICT", JStr "Abbey Unified")])].

Definition birch_feature : jsval :=
  JObj 14 [("attributes", JObj 15 [("LEAID", JStr "0602"); ("DISTRICT", JStr "Birch")])].

(** The private service answers the search for "ab" with Abbey and
    Birch, the public one with Abbey again, under another name. *)
Definition abbey_birch_answers : list event :=
  [DebounceDistrict "ab"; DistrictEffect;
   Settle 0 (sample_answer 20 [abbey_feature; birch_feature])
            (sample_answer 22 [abbey_twin_feature])].

(** The user types "toString": no own cache entry, an inherited one. *)
Definition inherited_member_search : list event :=
  [DebounceDistrict "toString"; DistrictEffect].

(** A school feature whose district identifier is under [LEA_ID]. *)
Definition lea_id_only_attrs : jsval :=
  JObj 41 [("LEA_ID", JStr "0601234"); ("NAME", JStr "Ogden High")].

(** A sample number formatting and a sample sort that keeps the order
    it is given (a permutation, as [localeCompare]'s sort is); the
    concrete scenarios below do not depend on the order. *)
Definition sample_number_to_string (q : Q) : string := "0".

Definition sample_sort (l : list District.t) : except (list District.t) := ret l.

(** A school without identifier from the private service, and a school
    with the same name, city and state and an identifier from the
    public one. *)
Definition unidentified_private_school : jsval :=
  JObj 60 [("attributes", JObj 61 [("NAME", JStr "Lincoln"); ("CITY", JStr "Ames");
                                   ("STATE", JStr "IA")])].

Definition identified_public_school : jsval :=
  JObj 62 [("attributes", JObj 63 [("NCESSCH", JStr "190001"); ("NAME", JStr "Lincoln");
                                   ("CITY", JStr "Ames"); ("STATE", JStr "IA")])].

(** The user types "Lincoln" with no district selected; both services
    list the identified school, the private one after its unidentified
    twin. *)
Definition lincoln_answers : list event :=
  [DebounceSchool "Lincoln"; SchoolEffect;
   Settle 0 (sample_answer 64 [unidentified_private_school; identified_public_school])
            (sample_answer 66 [identified_public_school])].

(** A controller state: no district selected, the school text "ab",
    the list of "ab" cached for both the unfiltered and the [D1] filter. *)
Definition ames_district : District.t :=
  District.mk JUndef (JStr "D1") (JStr "Ames CSD") JUndef (JStr "") (JStr "") (JStr "")
    (JStr "") JUndef JUndef JUndef JUndef JUndef JUndef (JStr "").

Definition cached_school_state : home :=
  mkHome "" "ab" [ames_district] [] None None false false ∅
    (<["all-ab" := []]> (<["D1-ab" := []]> ∅)) None None [] 3.

(** A selected school (identifier "5") and a pending school search
    issued while it was selected; the search then returns another school
    (identifier "6") with the same name and city. *)
Definition selected_lincoln : School.t :=
  School.mk (JStr "5") (JStr "") (JStr "Lincoln") JUndef (JStr "") (JStr "Ames") (JStr "IA")
    (JStr "") JUndef JUndef JUndef JUndef JUndef JUndef JUndef.

Definition lincoln_pending : pending :=
  mkPending 0 (QSchool "Lincoln" JUndef "all-Lincoln" (Some selected_lincoln)) false.

Definition pending_school_state : home :=
  mkHome "" "Lincoln" [] [selected_lincoln] None (Some selected_lincoln) false true ∅ ∅
    None (Some 0) [lincoln_pending] 1.

Definition other_lincoln_answer : fetch_outcome :=
  sample_answer 70 [JObj 72 [("attributes", JObj 73 [("NCESSCH", JStr "6"); ("NAME", JStr "Lincoln");
                                                    ("CITY", JStr "Ames"); ("STATE", JStr "IA")])]].

(** A school with a latitude attribute but no longitude, and a geometry
    point. *)
Definition lat_only_attrs : jsval := JObj 80 [("LAT", JNum 40)].

Definition sample_point : jsval := JObj 81 [("x", JNum (-70)); ("y", JNum 41)].

(* ------------------------------------------------------------------ *)
(** ** Properties *)

Lemma strict_eq_truthy (x y : jsval) :
  strict_eq x y = true -> truthy x = truthy y.
Proof.
  destruct x, y; simpl; try discriminate; auto.
  - intros H. apply Bool.eqb_prop in H. now subst.
  - intros H. apply Qeq_bool_iff in H. unfold Qeq in H.
    destruct (Z.eqb_spec (Qnum q) 0), (Z.eqb_spec (Qnum q0) 0); simpl; auto;
      exfalso; nia.
  - intros H. apply String.eqb_eq in H. now subst.
Qed.

Lemma strict_eq_JStr (v : jsval) (s : string) :
  strict_eq v (JStr s) = true -> v = JStr s.
Proof.
  destruct v; simpl; try discriminate. intros H. apply String.eqb_eq in H. now subst.
Qed.

Lemma find_index_min {A} (p : A -> bool) (l : list A) (i j : nat) (x : A) :
  find_index p l = Some j -> l !! i = Some x -> p x = true -> (j <= i)%nat.
Proof.
  revert i j. induction l as [|y l IH]; intros i j Hf Hi Hp; simpl in *; [discriminate|].
  destruct (p y) eqn:Hy.
  - injection Hf as <-. lia.
  - destruct (find_index p l) as [j'|] eqn:Hf'; simpl in Hf; [|discriminate].
    injection Hf as <-. destruct i as [|i]; simpl in Hi.
    + injection Hi as ->. congruence.
    + specialize (IH i j' eq_refl Hi Hp). lia.
Qed.

Lemma first_index_is_min {A} (p : A -> bool) (self : list A) (index i : nat) (x : A) :
  first_index_is p self index = true -> self !! i = Some x -> p x = true -> (index <= i)%nat.
Proof.
  unfold first_index_is. destruct (find_index p self) as [j|] eqn:Hf; [|discriminate].
  intros Hj Hi Hp. apply Nat.eqb_eq in Hj. subst j. eapply find_index_min; eauto.
Qed.

Lemma filter_from_sublist (self rest : list School.t) (k : nat) :
  filter_from self rest k `sublist_of` rest.
Proof.
  revert k. induction rest as [|s rest IH]; intros k; simpl; [constructor|].
  destruct (keep_school self s k); constructor; apply IH.
Qed.

Lemma filter_from_kept (self rest : list School.t) (k : nat) (y : School.t) :
  drop k self = rest -> In y (filter_from self rest k) ->
  exists j, (k <= j)%nat /\ self !! j = Some y /\ keep_school self y j = true.
Proof.
  revert k. induction rest as [|s rest IH]; intros k Hd Hy; simpl in Hy; [contradiction|].
  assert (Hk : self !! k = Some s).
  { rewrite <- (Nat.add_0_r k), <- lookup_drop, Hd. reflexivity. }
  assert (Hd' : drop (S k) self = rest).
  { rewrite <- Nat.add_1_r, <- drop_drop, Hd. reflexivity. }
  destruct (keep_school self s k) eqn:Hkeep.
  - destruct Hy as [<-|Hy].
    + exists k. auto.
    + destruct (IH (S k) Hd' Hy) as (j & ? & ? & ?). exists j. split; [lia|auto].
  - destruct (IH (S k) Hd' Hy) as (j & ? & ? & ?). exists j. split; [lia|auto].
Qed.

Lemma filter_from_no_same_pair (self rest : list School.t) (k : nat) :
  drop k self = rest ->
  ForallOrdPairs (fun x y => ~ same_school_pair x y) (filter_from self rest k).
Proof.
  revert k. induction rest as [|s rest IH]; intros k Hd; simpl; [constructor|].
  assert (Hk : self !! k = Some s).
  { rewrite <- (Nat.add_0_r k), <- lookup_drop, Hd. reflexivity. }
  assert (Hd' : drop (S k) self = rest).
  { rewrite <- Nat.add_1_r, <- drop_drop, Hd. reflexivity. }
  destruct (keep_school self s k); [|apply IH; exact Hd'].
  constructor; [|apply IH; exact Hd'].
  apply List.Forall_forall. intros y Hy.
  destruct (filter_from_kept self rest (S k) y Hd' Hy) as (j & Hj & _ & Hkeep).
  unfold keep_school in Hkeep.
  intros [[Ht He] | (Ht & Hn & Hc & Hs)].
  - rewrite (strict_eq_truthy _ _ He) in Ht. rewrite Ht in Hkeep.
    pose proof (first_index_is_min _ _ _ _ _ Hkeep Hk He). lia.
  - rewrite Ht in Hkeep.
    assert (Hp : (strict_eq (School.NAME s) (School.NAME y)
                  && strict_eq (School.CITY s) (School.CITY y)
                  && strict_eq (School.STATE s) (School.STATE y)) = true).
    { now rewrite Hn, Hc, Hs. }
    pose proof (first_index_is_min _ _ _ _ _ Hkeep Hk Hp). lia.
Qed.

Lemma too_short_length (q : string) :
  (String.length q < 2)%nat -> too_short q = true.
Proof.
  intros H. unfold too_short. apply orb_true_iff. right. now apply Nat.ltb_lt.
Qed.

(** C3 (as amended).  With a trimmed query shorter than two characters,
    [searchSchoolDistricts] fulfils with [[]] without any fetch;
    [searchSchools] has no such guard and, without a district filter,
    fetches every school ([where=1=1]) from both services; the school
    effect of the controller, when no district is selected, does not
    call it but clears the results and the selection. *)
Theorem short_query_searches (name : string) (net : request -> fetch_outcome) (st : home)
  (Hshort : (String.length (trim name) < 2)%nat) :
  searchSchoolDistricts name net = ([], Fulfilled [])
  /\ fst (searchSchools name JUndef net)
     = [mkRequest PrivateSchools "1=1" 100; mkRequest PublicSchools "1=1" 100]
  /\ (debouncedSchoolQuery st = name -> selectedDistrict st = None ->
      exists st', school_effect st = Ok st'
                  /\ schools st' = [] /\ selectedSchool st' = None
                  /\ nextController st' = nextController st
                  /\ schoolCleanup st' = None).
Proof.
  pose proof (too_short_length _ Hshort) as Hts.
  split; [|split].
  - unfold searchSchoolDistricts. apply Nat.ltb_lt in Hshort. now rewrite Hshort, orb_true_r.
  - unfold searchSchools, school_where.
    assert (Hle : (2 <=? String.length (trim name))%nat = false) by (apply Nat.leb_gt; lia).
    rewrite Hle, andb_false_r. reflexivity.
  - intros Hq Hd. unfold school_effect.
    cbn [set_schoolCleanup set_inflight debouncedSchoolQuery selectedDistrict].
    rewrite Hq, Hd, Hts. simpl. eexists. repeat split.
Qed.

Lemma read_json_as_empty (o : fetch_outcome) :
  read_json (fetch_caught (as_empty_answer o)) = read_json (fetch_caught o).
Proof. destruct o as [| |[] [?|?]]; reflexivity. Qed.

(** C4.  Whatever each service does, both searches fulfil; and a source
    that fails (network error, abort, non-success status) leaves the
    searches exactly as if it had answered with no features, so the
    other source's features go through normalization (and, for
    districts, the per-identifier map and the sort) as usual. *)
Theorem search_failed_source_counts_as_empty (name : string) (lea : jsval)
  (net : request -> fetch_outcome) :
  (exists l, snd (searchSchoolDistricts name net) = Fulfilled l)
  /\ searchSchoolDistricts name (fun r => as_empty_answer (net r)) = searchSchoolDistricts name net
  /\ (exists l, snd (searchSchools name lea net) = Fulfilled l)
  /\ searchSchools name lea (fun r => as_empty_answer (net r)) = searchSchools name lea net.
Proof.
  split; [|split; [|split]].
  - unfold searchSchoolDistricts. destruct (_ || _); eexists; reflexivity.
  - unfold searchSchoolDistricts, districts_after_fetch. destruct (_ || _); [reflexivity|].
    cbv beta zeta. now rewrite !read_json_as_empty.
  - unfold searchSchools. destruct (school_where name lea); eexists; reflexivity.
  - unfold searchSchools, schools_after_fetch. destruct (school_where name lea); [|reflexivity].
    cbv beta zeta. now rewrite !read_json_as_empty.
Qed.

Lemma read_json_after_abort (o : fetch_outcome) :
  read_json (fetch_caught (after_abort o)) = Throw AbortError
  \/ read_json (fetch_caught (after_abort o)) = Ok empty_features.
Proof. destruct o as [| |[] ?]; simpl; auto. Qed.

(** C10.  Both searches always fulfil with an array, and never reject;
    when their signal is aborted while the fetches are in flight they
    fulfil with [[]], the same value as a search that found nothing. *)
Theorem searches_always_fulfil (name : string) (lea : jsval) (net : request -> fetch_outcome) :
  (exists l, snd (searchSchoolDistricts name net) = Fulfilled l)
  /\ (exists l, snd (searchSchools name lea net) = Fulfilled l)
  /\ snd (searchSchoolDistricts name (fun r => after_abort (net r))) = Fulfilled []
  /\ snd (searchSchools name lea (fun r => after_abort (net r))) = Fulfilled [].
Proof.
  split; [|split; [|split]].
  - unfold searchSchoolDistricts. destruct (_ || _); eexists; reflexivity.
  - unfold searchSchools. destruct (school_where name lea); eexists; reflexivity.
  - unfold searchSchoolDistricts, districts_after_fetch. destruct (_ || _); [reflexivity|].
    cbv beta zeta.
    destruct (read_json_after_abort (net (mkRequest PrivateSchools (district_where (trim name)) 500)))
      as [E|E]; rewrite E; [reflexivity|].
    destruct (read_json_after_abort (net (mkRequest PublicSchools (district_where (trim name)) 500)))
      as [E'|E']; rewrite E'; reflexivity.
  - unfold searchSchools, schools_after_fetch. destruct (school_where name lea) as [w|]; [|reflexivity].
    cbv beta zeta.
    destruct (read_json_after_abort (net (mkRequest PrivateSchools w 100))) as [E|E];
      rewrite E; [reflexivity|].
    destruct (read_json_after_abort (net (mkRequest PublicSchools w 100))) as [E'|E'];
      rewrite E'; reflexivity.
Qed.


(** C5 (as amended).  A district selection change clears the school
    selection and deletes the cached school list of the key made of the
    NEW filter and the current debounced text ([`${leaId || "all"}-${q}`]);
    every other cache entry, the old filter's included, is left as it
    was.  When the new filter is a district of the list (or none, with a
    text long enough to search), the next run of the school effect finds
    no cached list and issues a fetch. *)
Theorem district_change_evicts_new_filter_key (st st' : home) (leaId : string)
  (Hstep : handleDistrictChange leaId st = Ok st') :
  let newKey := String.append (if String.eqb leaId "" then "all" else leaId)
                              (String.append "-" (trim (debouncedSchoolQuery st))) in
  selectedSchool st' = None
  /\ schoolCache st' !! newKey = None
  /\ (forall k, k <> newKey -> schoolCache st' !! k = schoolCache st !! k)
  /\ ((leaId = "" /\ too_short (trim (debouncedSchoolQuery st)) = false)
      \/ (leaId <> "" /\ exists d, In d (districts st)
                                 /\ strict_eq (District.LEAID d) (JStr leaId) = true) ->
      exists st'', school_effect st' = Ok st''
                   /\ nextController st'' = S (nextController st')
                   /\ schoolCleanup st'' = Some (nextController st')).
Proof.
  unfold handleDistrictChange in Hstep. inversion Hstep as [Hst]. clear Hstep.
  intros newKey. subst st'.
  cbn [set_schoolCache set_selectedSchool set_selectedDistrict schoolCache selectedSchool
       debouncedSchoolQuery].
  split; [reflexivity|]. split; [apply lookup_delete_eq|].
  split; [intros k Hk; apply lookup_delete_ne; intros E; apply Hk; subst newKey; symmetry; exact E|].
  intros Hcase. unfold school_effect.
  cbn [set_schoolCache set_selectedSchool set_selectedDistrict set_schoolCleanup set_inflight
       schoolCache selectedSchool selectedDistrict debouncedSchoolQuery nextController].
  destruct Hcase as [[Hl Hts] | [Hne [d [Hin Hd]]]].
  - subst leaId. simpl String.eqb in *. cbv iota. rewrite Hts. simpl andb. cbv iota.
    simpl to_string. cbn [bind ret]. subst newKey. rewrite lookup_delete_eq.
    eexists. repeat split.
  - apply String.eqb_neq in Hne as Hne'. rewrite Hne' in *. cbv iota.
    destruct (find (fun d => strict_eq (District.LEAID d) (JStr leaId)) (districts st)) as [d'|] eqn:Hf.
    + apply find_some in Hf as [_ Hd']. apply strict_eq_JStr in Hd'.
      rewrite (bool_decide_eq_true_2 (is_Some (Some d'))) by (eexists; reflexivity).
      rewrite andb_false_r. cbv iota. rewrite Hd'.
      unfold js_or. simpl truthy. rewrite Hne'. simpl. cbn [bind ret].
      subst newKey. rewrite lookup_delete_eq. eexists. repeat split.
    + exfalso. pose proof (find_none _ _ Hf d Hin). congruence.
Qed.


(** C6 (as amended).  When a school search settles with [res] and a
    school [sel] with a non-empty identifier was selected in the render
    whose effect issued it, the controller shows [res] and keeps the
    current selection iff some school of [res] has [sel]'s identifier,
    or [sel]'s name and city (also when the two identifiers differ);
    otherwise it clears the selection. *)
Theorem school_settle_selection (st st' : home) (id : nat) (o1 o2 : fetch_outcome)
  (p : pending) (q : string) (lea : jsval) (key : string) (sel : School.t)
  (res : list School.t)
  (Hp : find (fun p => Nat.eqb (p_id p) id) (inflight st) = Some p)
  (Hq : p_query p = QSchool q lea key (Some sel))
  (Hres : snd (searchSchools q lea (net_of (p_aborted p) o1 o2)) = Fulfilled res)
  (Hid : truthy (School.NCESSCH sel) = true)
  (Hstep : settle id o1 o2 st = Ok st') :
  schools st' = res
  /\ ((exists s, In s res
                 /\ (strict_eq (School.NCESSCH s) (School.NCESSCH sel) = true
                     \/ (strict_eq (School.NAME s) (School.NAME sel) = true
                         /\ strict_eq (School.CITY s) (School.CITY sel) = true)))
      -> selectedSchool st' = selectedSchool st)
  /\ ((~ exists s, In s res
                   /\ (strict_eq (School.NCESSCH s) (School.NCESSCH sel) = true
                       \/ (strict_eq (School.NAME s) (School.NAME sel) = true
                           /\ strict_eq (School.CITY s) (School.CITY sel) = true)))
      -> selectedSchool st' = None).
Proof.
  unfold settle in Hstep. rewrite Hp, Hq in Hstep. cbv zeta in Hstep.
  rewrite Hres in Hstep. inversion Hstep as [Hst]. clear Hstep. subst st'.
  unfold school_then.
  destruct (school_still_exists sel res) eqn:E; unfold school_still_exists in E.
  - apply existsb_exists in E as (s & Hin & Hs). simpl. split; [reflexivity|]. split.
    + intros _. reflexivity.
    + intros Hn. exfalso. apply Hn. exists s. split; [exact Hin|].
      apply orb_true_iff in Hs as [Hs|Hs]; [now left|right].
      now apply andb_true_iff in Hs.
  - simpl. split; [reflexivity|]. split.
    + intros (s & Hin & Hs). exfalso.
      assert (Hx : existsb (fun s => strict_eq (School.NCESSCH s) (School.NCESSCH sel)
                        || (strict_eq (School.NAME s) (School.NAME sel)
                            && strict_eq (School.CITY s) (School.CITY sel))) res = true).
      { apply existsb_exists. exists s. split; [exact Hin|].
        destruct Hs as [Hs|[Hn Hc]]; [now rewrite Hs|now rewrite Hn, Hc, orb_true_r]. }
      congruence.
    + intros _. reflexivity.
Qed.

(** Inverting a chain of [let*] that ended in [Ok]. *)
Ltac inv_bind H :=
  repeat match type of H with
  | bind ?m _ = Ok _ =>
      let E := fresh "E" in
      destruct m eqn:E; cbn [bind] in H; [|discriminate H]
  end.

(** C8 (as amended).  [normalizeSchoolAttributes] first reads the
    coordinates from the attribute fields.  When both are present
    (truthy), or no geometry is supplied, they are kept.  When either is
    missing and a geometry is supplied, BOTH take the geometry's [y] /
    [x] when that is truthy, and keep the attribute value otherwise, so
    a coordinate present in the attributes is replaced by the geometry's
    one when the other coordinate is missing. *)
Theorem school_coordinates_resolution (a g : jsval) (r : School.t)
  (Hn : normalizeSchoolAttributes a g = Ok r) :
  exists lat0 lon0,
    school_lat_attr a = Ok lat0 /\ school_lon_attr a = Ok lon0
    /\ ((truthy lat0 && truthy lon0 = true \/ truthy g = false) ->
        School.LAT r = lat0 /\ School.LON r = lon0)
    /\ (truthy lat0 && truthy lon0 = false -> truthy g = true ->
        exists gy gx, get g "y" = Ok gy /\ get g "x" = Ok gx
                      /\ School.LAT r = js_or gy lat0 /\ School.LON r = js_or gx lon0).
Proof.
  unfold normalizeSchoolAttributes in Hn.
  inv_bind Hn.
  match type of E9 with
  | (if ?c then _ else _) = Ok _ => destruct c eqn:Hc
  end.
  - inv_bind E9. injection E9 as <-. injection Hn as <-.
    apply andb_true_iff in Hc as [Hc Hg].
    exists a8, a9. split; [reflexivity|]. split; [reflexivity|]. split.
    + intros [H|H].
      * exfalso. apply andb_true_iff in H as [H1 H2]. rewrite H1, H2 in Hc. discriminate.
      * congruence.
    + intros _ _. do 2 eexists. split; [first [eassumption|reflexivity]|].
      split; [first [eassumption|reflexivity]|].
      split; reflexivity.
  - injection E9 as <-. injection Hn as <-.
    exists a8, a9. split; [reflexivity|]. split; [reflexivity|]. split.
    + intros _. split; reflexivity.
    + intros H Hg. exfalso. rewrite Hg, andb_true_r in Hc.
      apply orb_false_iff in Hc as [H1 H2]. apply negb_false_iff in H1, H2.
      rewrite H1, H2 in H. discriminate.
Qed.


Lemma get_ok (a : jsval) (k : string) :
  a <> JUndef -> a <> JNull -> exists v, get a k = Ok v.
Proof. destruct a; intros H1 H2; try congruence; eexists; reflexivity. Qed.

Lemma get_truthy_ok (a : jsval) (k : string) :
  truthy a = true -> exists v, get a k = Ok v.
Proof. intros H. apply get_ok; intros ->; discriminate. Qed.

Lemma or_list_ok (es : list (except jsval)) :
  Forall (fun e => exists v, e = Ok v) es -> exists v, or_list es = Ok v.
Proof.
  induction es as [|e es IH]; intros H; [eexists; reflexivity|].
  inversion H as [|? ? Hv Hes]; subst. destruct Hv as [v Ev].
  destruct es as [|e' es']; [eexists; exact Ev|].
  cbn [or_list]. rewrite Ev. cbn [bind].
  destruct (truthy v); [eexists; reflexivity|]. now apply IH.
Qed.

(** Runs a chain of [let*] whose every step is known to succeed. *)
Ltac run_ok :=
  repeat match goal with
  | |- context [bind (or_list ?es) _] =>
      let F := fresh "F" in let v := fresh "v" in let E := fresh "E" in
      assert (F : Forall (fun e => exists v, e = Ok v) es)
        by (repeat (constructor;
                     [first [apply get_ok; assumption | assumption | eexists; reflexivity] |]);
            constructor);
      destruct (or_list_ok es F) as [v E]; rewrite E; cbn [bind]
  | |- context [bind (get ?x ?k) _] =>
      let v := fresh "v" in let E := fresh "E" in
      assert (E : exists v, get x k = Ok v)
        by (first [apply get_ok; assumption | apply get_truthy_ok; assumption]);
      destruct E as [v E]; rewrite E; cbn [bind]
  | |- context [bind (school_lat_attr ?x) _] => unfold school_lat_attr
  | |- context [bind (school_lon_attr ?x) _] => unfold school_lon_attr
  | |- context [bind (if ?c then _ else _) _] =>
      let Hc := fresh "Hc" in
      destruct c eqn:Hc; [apply andb_true_iff in Hc as [_ Hc]|]; cbn [bind ret]
  end.

Lemma district_label_ok (a : jsval) :
  a <> JUndef -> a <> JNull ->
  (forall v, get a "LEAID" = Ok v -> truthy v = true -> exists s, to_string v = Ok s) ->
  exists l, district_label a = Ok l.
Proof.
  intros Ha Hb Hs. unfold district_label.
  destruct (get_ok a "LEAID" Ha Hb) as [v E]. rewrite E. cbn [bind]. unfold js_or.
  destruct (truthy v) eqn:Ht.
  - destruct (Hs v E Ht) as [s' Es]. rewrite Es. eexists; reflexivity.
  - eexists; reflexivity.
Qed.

Lemma or_list_skip (e : except jsval) (es : list (except jsval)) (w : jsval) :
  e = Ok w -> truthy w = false -> es <> [] -> or_list (e :: es) = or_list es.
Proof.
  intros -> Hw Hne. destruct es as [|e' es]; [contradiction|].
  cbn [or_list bind]. rewrite Hw. reflexivity.
Qed.

Lemma or_list_first_truthy (a : jsval) (pre : list string) (k : string) (post : list string)
  (tl : list (except jsval)) (v x : jsval) :
  or_list (map (get a) (pre ++ k :: post) ++ tl) = Ok x ->
  Forall (reads_falsy a) pre -> get a k = Ok v -> truthy v = true -> x = v.
Proof.
  revert x. induction pre as [|p pre IH]; intros x H Hf Hk Ht.
  - cbn [map app] in H. destruct (map (get a) post ++ tl) as [|e es] eqn:R.
    + cbn [or_list] in H. congruence.
    + cbn [or_list] in H. rewrite Hk in H. cbn [bind] in H. rewrite Ht in H.
      injection H as ->. reflexivity.
  - inversion Hf as [|? ? (w & Hw & Hwt) Hf']; subst.
    cbn [map app] in H. rewrite (or_list_skip _ _ w Hw Hwt) in H; [exact (IH x H Hf' Hk Ht)|].
    intros R. apply app_eq_nil in R as [R _]. apply map_eq_nil in R. destruct pre; discriminate.
Qed.

Lemma or_list_all_falsy (a : jsval) (keys : list string) (fb : option (except jsval))
  (x : jsval) :
  or_list (map (get a) keys ++ match fb with Some d => [d] | None => [] end) = Ok x ->
  Forall (reads_falsy a) keys ->
  match fb with
  | Some d => d = Ok x
  | None => forall pre k, keys = pre ++ [k] -> get a k = Ok x
  end.
Proof.
  revert x. induction keys as [|k ks IH]; intros x H Hf.
  - destruct fb as [d|]; cbn in H |- *; [exact H|].
    intros pre k Hk. destruct pre; discriminate.
  - inversion Hf as [|? ? (w & Hw & Hwt) Hf']; subst.
    cbn [map app] in H.
    destruct (map (get a) ks ++ match fb with Some d => [d] | None => [] end)
      as [|e es] eqn:R.
    + apply app_eq_nil in R as [R1 R2]. apply map_eq_nil in R1. subst ks.
      destruct fb as [d|]; [discriminate|]. cbn [or_list] in H.
      intros pre k' Hk. destruct pre as [|p [|q pre]]; cbn in Hk.
      * injection Hk as ->. exact H.
      * discriminate.
      * discriminate.
    + rewrite (or_list_skip _ _ w Hw Hwt) in H; [|discriminate].
      specialize (IH x H Hf').
      destruct fb as [d|]; [exact IH|].
      intros pre k' Hk. destruct pre as [|p pre].
      * injection Hk as -> ->. cbn in R. discriminate.
      * injection Hk as -> Hk. exact (IH pre k' Hk).
Qed.

Lemma or_list_follows (a x : jsval) (keys : list string) (fb : option (except jsval)) :
  or_list (map (get a) keys ++ match fb with Some d => [d] | None => [] end) = Ok x ->
  follows_rule a x keys fb.
Proof.
  intros H. split.
  - intros pre k post v -> Hf Hk Ht. exact (or_list_first_truthy _ _ _ _ _ _ _ H Hf Hk Ht).
  - exact (or_list_all_falsy _ _ _ _ H).
Qed.

Ltac obeys_chains :=
  repeat (apply List.Forall_cons; [apply or_list_follows; eassumption|]);
  apply List.Forall_nil.

Lemma normalizeSchool_rules (a g : jsval) (r : School.t) :
  normalizeSchoolAttributes a g = Ok r ->
  obeys_rules a r school_field_rules
  /\ School.STFIP r = JUndef
  /\ (truthy g = false -> obeys_rules a r school_coordinate_rules).
Proof.
  intros H. unfold normalizeSchoolAttributes, school_lat_attr, school_lon_attr in H.
  inv_bind H. injection H as <-.
  split; [unfold obeys_rules, school_field_rules; obeys_chains|].
  split; [reflexivity|].
  intros Hg. match goal with
  | E : (if _ then _ else _) = Ok _ |- _ => rewrite Hg, andb_false_r in E; injection E as <-
  end.
  unfold obeys_rules, school_coordinate_rules. obeys_chains.
Qed.

Lemma normalizeDistrict_rules (a : jsval) (r : District.t) :
  normalizeDistrictAttributes a = Ok r ->
  obeys_rules a r (district_field_rules a) /\ District.OPSTFIPS r = JUndef.
Proof.
  intros H. unfold normalizeDistrictAttributes in H. inv_bind H. injection H as <-.
  split; [unfold obeys_rules, district_field_rules; obeys_chains|reflexivity].
Qed.

(** The district name chain succeeds when one of its attributes is
    truthy, or when the label can be built. *)
Lemma district_name_ok (a : jsval) :
  a <> JUndef -> a <> JNull ->
  (exists k v, In k ["DISTRICT"; "LEA_NAME"; "LEANM"] /\ get a k = Ok v /\ truthy v = true)
  \/ (forall v, get a "LEAID" = Ok v -> truthy v = true -> exists s, to_string v = Ok s) ->
  exists n, or_list [get a "DISTRICT"; get a "LEA_NAME"; get a "LEANM"; district_label a]
            = Ok n.
Proof.
  intros Ha Hb Hc.
  destruct (get_ok a "DISTRICT" Ha Hb) as [v1 E1].
  destruct (get_ok a "LEA_NAME" Ha Hb) as [v2 E2].
  destruct (get_ok a "LEANM" Ha Hb) as [v3 E3].
  cbn [or_list]. rewrite E1. cbn [bind]. destruct (truthy v1) eqn:T1; [eexists; reflexivity|].
  rewrite E2. cbn [bind]. destruct (truthy v2) eqn:T2; [eexists; reflexivity|].
  rewrite E3. cbn [bind]. destruct (truthy v3) eqn:T3; [eexists; reflexivity|].
  destruct Hc as [(k & v & Hk & Ev & Tv)|Hs].
  - exfalso. destruct Hk as [<-|[<-|[<-|[]]]]; congruence.
  - exact (district_label_ok a Ha Hb Hs).
Qed.

(** C7 (as amended).  On every raw value other than [null] and
    [undefined], [normalizeSchoolAttributes] returns a record without
    throwing; so does [normalizeDistrictAttributes], exactly unless it
    has to build its label ([DISTRICT], [LEA_NAME] and [LEANM] all
    missing or falsy) from a truthy [LEAID] whose string conversion
    throws (a JSON object with an own [toString] key, say).  On [null]
    and [undefined] both throw a TypeError (the searches never pass
    these: they pass [f.attributes || f]).  In every record they
    return, each field follows its chain: a present truthy attribute is
    copied as it is, whatever its type; when all its attributes are
    missing or falsy the field takes the chain's fallback ([""], the
    district label for a district's name) or, where the chain has none,
    the last attribute's value ([undefined] when missing).  The school
    coordinates follow their chains when no geometry is given; the
    fields the code never sets are [undefined]. *)
Theorem normalizers_total_on_objects :
  (forall a g, a <> JUndef -> a <> JNull -> exists r, normalizeSchoolAttributes a g = Ok r)
  /\ (forall a, a <> JUndef -> a <> JNull ->
      (exists r, normalizeDistrictAttributes a = Ok r)
      <-> ((exists k v, In k ["DISTRICT"; "LEA_NAME"; "LEANM"]
                        /\ get a k = Ok v /\ truthy v = true)
          \/ (forall v, get a "LEAID" = Ok v -> truthy v = true ->
                        exists s, to_string v = Ok s)))
  /\ (forall g, normalizeSchoolAttributes JUndef g = Throw TypeError
                /\ normalizeSchoolAttributes JNull g = Throw TypeError)
  /\ normalizeDistrictAttributes JUndef = Throw TypeError
  /\ normalizeDistrictAttributes JNull = Throw TypeError
  /\ normalizeDistrictAttributes (JObj 1 [("LEAID", JObj 2 [("toString", JNum 1)])])
     = Throw TypeError
  /\ (forall a g r, normalizeSchoolAttributes a g = Ok r ->
        obeys_rules a r school_field_rules
        /\ School.STFIP r = JUndef
        /\ (truthy g = false -> obeys_rules a r school_coordinate_rules))
  /\ (forall a r, normalizeDistrictAttributes a = Ok r ->
        obeys_rules a r (district_field_rules a) /\ District.OPSTFIPS r = JUndef).
Proof.
  split; [|split; [|split; [|split; [|split; [|split; [|split]]]]]].
  - intros a g Ha Hb. unfold normalizeSchoolAttributes. run_ok. all: eexists; reflexivity.
  - intros a Ha Hb. split.
    + intros [r Hr]. destruct (normalizeDistrict_rules a r Hr) as [Hrules _].
      destruct (get_ok a "DISTRICT" Ha Hb) as [v1 E1].
      destruct (get_ok a "LEA_NAME" Ha Hb) as [v2 E2].
      destruct (get_ok a "LEANM" Ha Hb) as [v3 E3].
      destruct (truthy v1) eqn:T1; [left; exists "DISTRICT", v1; cbn; auto|].
      destruct (truthy v2) eqn:T2; [left; exists "LEA_NAME", v2; cbn; auto|].
      destruct (truthy v3) eqn:T3; [left; exists "LEANM", v3; cbn; auto|].
      right. unfold obeys_rules, district_field_rules in Hrules.
      do 2 apply List.Forall_inv_tail in Hrules. apply List.Forall_inv in Hrules.
      destruct Hrules as [_ Hlabel].
      assert (Hl : district_label a = Ok (District.NAME r)).
      { apply Hlabel. repeat constructor; eexists; split; eassumption. }
      intros v Ev Tv. unfold district_label in Hl. rewrite Ev in Hl. cbn [bind] in Hl.
      unfold js_or in Hl. rewrite Tv in Hl.
      destruct (to_string v) as [s|]; [eexists; reflexivity|discriminate].
    + intros Hc. destruct (district_name_ok a Ha Hb Hc) as [n En].
      unfold normalizeDistrictAttributes. rewrite En. run_ok. eexists; reflexivity.
  - intros g. split; reflexivity.
  - reflexivity.
  - reflexivity.
  - reflexivity.
  - exact normalizeSchool_rules.
  - exact normalizeDistrict_rules.
Qed.

(** C9 (code defect).  The identifier of a district record comes from
    [LEAID], [LEA_ID] or [LEA], but its synthesized label only reads
    [LEAID]: a record whose identifier is under [LEA_ID] is named
    "District Unknown", and [searchSchoolDistricts] lists it so. *)
Theorem district_label_ignores_lea_id :
  exists r, normalizeDistrictAttributes lea_id_only_attrs = Ok r
            /\ District.LEAID r = JStr "0601234"
            /\ District.NAME r = JStr "District Unknown"
            /\ snd (searchSchoolDistricts "Ogden"
                     (two_sources (sample_answer 42 [JObj 40 [("attributes", lea_id_only_attrs)]])
                                  (sample_answer 44 [])))
               = Fulfilled [r].
Proof.
  eexists. split; [vm_compute; reflexivity|].
  repeat split; vm_compute; reflexivity.
Qed.

(** C1 (code defect).  The superseded district search ("abc"), aborted
    by the effect's cleanup, still runs its [.then]: its searches
    swallow the AbortError and fulfil with [[]], which replaces the
    list the current query ("ab") is showing and is cached under "abc". *)
Theorem stale_district_result_applied :
  (exists st7, run initial_home (firstn 7 stale_district_trace) = Ok st7
               /\ districts st7 = [abbey_district]
               /\ inflight st7 = [mkPending 1 (QDistrict "abc") true])
  /\ (exists st, run initial_home stale_district_trace = Ok st
                /\ debouncedDistrictQuery st = "ab"
                /\ districtCache st !! "ab" = Some [abbey_district]
                /\ districts st = []
                /\ districtCache st !! "abc" = Some []).
Proof.
  split.
  - eexists. split; [vm_compute; reflexivity|]. split; vm_compute; reflexivity.
  - eexists. split; [vm_compute; reflexivity|]. repeat split; vm_compute; reflexivity.
Qed.

(* ------------------------------------------------------------------ *)
(** ** Further properties of the code *)

(** *** [useDebounce] *)

Lemma debounce_inv_step (ms : N) (s : debounce) (e : debounce_event) :
  debounce_inv ms s -> debounce_inv ms (debounce_step ms s e).
Proof.
  unfold debounce_inv. destruct e as [v|dt]; cbn.
  - destruct (String.eqb v (deb_value s)); [auto|]. cbn. split; [reflexivity|lia].
  - destruct (deb_timer s) as [[d w]|]; cbn; [|auto].
    intros [Hw Hd]. destruct (N.leb_spec d (deb_now s + dt)); cbn; [auto|].
    split; [exact Hw|lia].
Qed.

Lemma debounce_inv_run (ms : N) (evs : list debounce_event) :
  forall s, debounce_inv ms s -> debounce_inv ms (debounce_run ms s evs).
Proof.
  induction evs as [|e evs IH]; intros s Hs; [exact Hs|].
  apply IH. now apply debounce_inv_step.
Qed.

Lemma debounce_quiet (ms : N) (evs : list debounce_event) :
  forall s, (elapsed evs < ms)%N ->
  (forall d v, deb_timer s = Some (d, v) -> (deb_now s + elapsed evs < d)%N) ->
  deb_debounced (debounce_run ms s evs) = deb_debounced s.
Proof.
  induction evs as [|e evs IH]; intros s He Ht; [reflexivity|].
  change (debounce_run ms s (e :: evs)) with (debounce_run ms (debounce_step ms s e) evs).
  destruct e as [v|dt]; cbn [elapsed] in He, Ht.
  - cbn [debounce_step]. destruct (String.eqb v (deb_value s)).
    + now apply IH.
    + rewrite IH; [reflexivity|exact He|]. cbn. intros d w E. injection E as <- _. lia.
  - cbn [debounce_step]. destruct (deb_timer s) as [[d w]|] eqn:Et.
    + specialize (Ht d w eq_refl).
      destruct (N.leb_spec d (deb_now s + dt)); [lia|].
      rewrite IH; [reflexivity|lia|]. cbn. intros d' w' E.
      injection E as <- _. lia.
    + rewrite IH; [reflexivity|lia|]. cbn. discriminate.
Qed.

(** [useDebounce] never publishes early: after a render that changes
    [value], the debounced value stays what it was for as long as less
    than [ms] milliseconds have passed, whatever renders come
    meanwhile. *)
Theorem debounce_holds_back (ms : N) (s : debounce) (v : string)
  (evs : list debounce_event)
  (Hnew : String.eqb v (deb_value s) = false) (Hshort : (elapsed evs < ms)%N) :
  deb_debounced (debounce_run ms s (DRender v :: evs)) = deb_debounced s.
Proof.
  change (debounce_run ms s (DRender v :: evs))
    with (debounce_run ms (debounce_step ms s (DRender v)) evs).
  cbn [debounce_step]. rewrite Hnew.
  rewrite debounce_quiet; [reflexivity|exact Hshort|].
  cbn. intros d w E. injection E as <- _. lia.
Qed.

(** [useDebounce] always catches up: from the first render on, once
    [ms] milliseconds pass without a render, the debounced value is the
    current [value]. *)
Theorem debounce_publishes (ms : N) (v0 : string) (evs : list debounce_event) (dt : N)
  (Hdt : (ms <= dt)%N) :
  deb_debounced (debounce_run ms (debounce_mount ms v0) (evs ++ [DElapse dt]))
  = deb_value (debounce_run ms (debounce_mount ms v0) (evs ++ [DElapse dt])).
Proof.
  unfold debounce_run. rewrite fold_left_app. fold (debounce_run ms (debounce_mount ms v0) evs).
  assert (Hi : debounce_inv ms (debounce_run ms (debounce_mount ms v0) evs)).
  { apply debounce_inv_run. cbn. split; [reflexivity|lia]. }
  revert Hi. generalize (debounce_run ms (debounce_mount ms v0) evs). intros s.
  unfold debounce_inv. cbn. destruct (deb_timer s) as [[d w]|]; cbn.
  - intros [Hw Hd]. destruct (N.leb_spec d (deb_now s + dt)); cbn; [exact Hw|lia].
  - auto.
Qed.

(** *** Trimming *)

Lemma trim_start_length (s : string) :
  (String.length (trim_start s) <= String.length s)%nat.
Proof.
  induction s as [|c r IH]; cbn [trim_start]; [lia|].
  destruct (is_js_space c); cbn [String.length]; lia.
Qed.

Lemma trim_start_idem (s : string) : trim_start (trim_start s) = trim_start s.
Proof.
  induction s as [|c r IH]; [reflexivity|]. cbn [trim_start].
  destruct (is_js_space c) eqn:Ec; [exact IH|]. cbn [trim_start]. now rewrite Ec.
Qed.

Lemma trim_end_idem (s : string) : trim_end (trim_end s) = trim_end s.
Proof.
  induction s as [|c r IH]; [reflexivity|]. cbn [trim_end].
  destruct (String.eqb (trim_end r) "" && is_js_space c) eqn:E; [reflexivity|].
  cbn [trim_end]. now rewrite IH, E.
Qed.

Lemma trim_start_trim_end (t : string) :
  trim_start t = t -> trim_start (trim_end t) = trim_end t.
Proof.
  destruct t as [|c r]; [reflexivity|]. cbn [trim_start].
  destruct (is_js_space c) eqn:Ec.
  - intros H. exfalso. pose proof (trim_start_length r) as Hl.
    rewrite H in Hl. cbn [String.length] in Hl. lia.
  - intros _. cbn [trim_end].
    destruct (String.eqb (trim_end r) "" && is_js_space c); [reflexivity|].
    cbn [trim_start]. now rewrite Ec.
Qed.

Lemma trim_idem (s : string) : trim (trim s) = trim s.
Proof.
  unfold trim. rewrite trim_start_trim_end by apply trim_start_idem.
  apply trim_end_idem.
Qed.

(** [searchSchoolDistricts] ignores leading and trailing white space of
    its query: the same requests, the same result. *)
Theorem searchSchoolDistricts_trim (name : string) (net : request -> fetch_outcome) :
  searchSchoolDistricts name net = searchSchoolDistricts (trim name) net.
Proof.
  unfold searchSchoolDistricts. rewrite trim_idem.
  destruct (String.eqb name "") eqn:En.
  { apply String.eqb_eq in En. subst name. reflexivity. }
  destruct (String.eqb (trim name) "") eqn:Et.
  { apply String.eqb_eq in Et. rewrite Et. reflexivity. }
  reflexivity.
Qed.

(** [searchSchools] ignores leading and trailing white space of its
    query: the same requests, the same result. *)
Theorem searchSchools_trim (name : string) (lea : jsval) (net : request -> fetch_outcome) :
  searchSchools name lea net = searchSchools (trim name) lea net.
Proof. unfold searchSchools, school_where. now rewrite trim_idem. Qed.

(** *** [===] on JSON values *)

Lemma strict_eq_refl (x : jsval) : strict_eq x x = true.
Proof.
  destruct x; simpl; auto.
  - now destruct b.
  - now apply Qeq_bool_iff.
  - apply String.eqb_refl.
  - apply Pos.eqb_refl.
  - apply Pos.eqb_refl.
Qed.

Lemma strict_eq_sym (x y : jsval) : strict_eq x y = strict_eq y x.
Proof.
  destruct x, y; simpl; auto.
  - now destruct b, b0.
  - destruct (Qeq_bool q q0) eqn:E1, (Qeq_bool q0 q) eqn:E2; auto.
    + apply Qeq_bool_iff in E1. apply Qeq_sym, Qeq_bool_iff in E1. congruence.
    + apply Qeq_bool_iff in E2. apply Qeq_sym, Qeq_bool_iff in E2. congruence.
  - apply String.eqb_sym.
  - apply Pos.eqb_sym.
  - apply Pos.eqb_sym.
Qed.

Lemma strict_eq_trans (x y z : jsval) :
  strict_eq x y = true -> strict_eq y z = true -> strict_eq x z = true.
Proof.
  destruct x, y, z; simpl; try discriminate; auto.
  - intros H1 H2. apply Bool.eqb_prop in H1, H2. subst. now destruct b1.
  - intros H1 H2. apply Qeq_bool_iff in H1, H2. apply Qeq_bool_iff. now rewrite H1.
  - intros H1 H2. apply String.eqb_eq in H1, H2. subst. apply String.eqb_refl.
  - intros H1 H2. apply Pos.eqb_eq in H1, H2. subst. apply Pos.eqb_refl.
  - intros H1 H2. apply Pos.eqb_eq in H1, H2. subst. apply Pos.eqb_refl.
Qed.

(** *** School deduplication *)

Lemma school_dup_refl (x : School.t) : school_dup x x = true.
Proof.
  unfold school_dup. destruct (truthy (School.NCESSCH x)); rewrite ?strict_eq_refl; reflexivity.
Qed.

Lemma keep_school_dup (self : list School.t) (x : School.t) (i : nat) :
  keep_school self x i = first_index_is (school_dup x) self i.
Proof. unfold keep_school, school_dup. now destruct (truthy (School.NCESSCH x)). Qed.

Lemma find_index_lt {A} (p : A -> bool) (l : list A) (j : nat) :
  find_index p l = Some j -> (j < length l)%nat.
Proof.
  revert j. induction l as [|y l IH]; intros j; simpl; [discriminate|].
  destruct (p y); [intros [= <-]; lia|].
  destruct (find_index p l) as [j'|]; simpl; [|discriminate].
  intros [= <-]. specialize (IH j' eq_refl). lia.
Qed.

Lemma find_index_app {A} (p : A -> bool) (a b : list A) :
  find_index p (a ++ b)
  = match find_index p a with
    | Some j => Some j
    | None => option_map (Nat.add (length a)) (find_index p b)
    end.
Proof.
  induction a as [|y a IH]; simpl.
  - now destruct (find_index p b).
  - destruct (p y); [reflexivity|]. rewrite IH.
    destruct (find_index p a); [reflexivity|]. now destruct (find_index p b).
Qed.

Lemma find_index_None {A} (p : A -> bool) (l : list A) :
  find_index p l = None <-> existsb p l = false.
Proof.
  induction l as [|y l IH]; simpl; [tauto|].
  destruct (p y); simpl; [split; discriminate|].
  rewrite <- IH. now destruct (find_index p l).
Qed.

(** The record at index [i] is kept iff no record before it is its
    duplicate. *)
Lemma keep_school_first_seen (self : list School.t) (i : nat) (x : School.t) :
  self !! i = Some x ->
  keep_school self x i = negb (existsb (school_dup x) (take i self)).
Proof.
  intros Hi. rewrite keep_school_dup. unfold first_index_is.
  assert (Hs : self = take i self ++ x :: drop (S i) self).
  { rewrite <- (drop_S self x i Hi). symmetry. apply take_drop. }
  assert (Hl : length (take i self) = i).
  { apply length_take_le. apply lookup_lt_Some in Hi. lia. }
  rewrite Hs at 1. rewrite find_index_app. cbn [find_index]. rewrite school_dup_refl.
  destruct (find_index (school_dup x) (take i self)) as [j|] eqn:Ef.
  - pose proof (find_index_lt _ _ _ Ef) as Hj.
    destruct (existsb (school_dup x) (take i self)) eqn:Ee.
    + simpl. apply Nat.eqb_neq. lia.
    + apply find_index_None in Ee. congruence.
  - apply find_index_None in Ef. rewrite Ef. simpl.
    rewrite Hl, Nat.add_0_r, Nat.eqb_refl. reflexivity.
Qed.

Lemma filter_from_first_seen (self rest : list School.t) (k : nat) :
  drop k self = rest -> filter_from self rest k = keep_first_seen (take k self) rest.
Proof.
  revert k. induction rest as [|x rest IH]; intros k Hd; [reflexivity|].
  assert (Hk : self !! k = Some x).
  { rewrite <- (Nat.add_0_r k), <- lookup_drop, Hd. reflexivity. }
  assert (Hd' : drop (S k) self = rest).
  { rewrite <- Nat.add_1_r, <- drop_drop, Hd. reflexivity. }
  cbn [filter_from keep_first_seen]. rewrite (keep_school_first_seen _ _ _ Hk).
  rewrite <- (take_S_r self k x Hk).
  destruct (existsb (school_dup x) (take k self)); simpl; [|f_equal]; now apply IH.
Qed.

Lemma unique_schools_scan (normalized : list School.t) :
  unique_schools normalized = keep_first_seen [] normalized.
Proof. unfold unique_schools. now apply filter_from_first_seen. Qed.

(** The deduplication of [searchSchools] is a first-seen scan: a record
    is kept iff no record before it in the merged list, kept or dropped,
    is its duplicate (the same non-empty [NCESSCH]; for a record without
    one, the same name, city and state, whatever the earlier record's
    identifier). *)
Theorem unique_schools_first_seen (normalized : list School.t) :
  unique_schools normalized = keep_first_seen [] normalized.
Proof. apply unique_schools_scan. Qed.

Lemma keep_first_seen_incl (rest seen_l seen_u : list School.t) :
  incl seen_u seen_l ->
  keep_first_seen seen_u (keep_first_seen seen_l rest) = keep_first_seen seen_l rest.
Proof.
  revert seen_l seen_u. induction rest as [|x rest IH]; intros seen_l seen_u Hinc; [reflexivity|].
  cbn [keep_first_seen]. destruct (existsb (school_dup x) seen_l) eqn:E.
  - apply IH. intros y Hy. apply in_or_app. left. now apply Hinc.
  - cbn [keep_first_seen].
    assert (Eu : existsb (school_dup x) seen_u = false).
    { destruct (existsb (school_dup x) seen_u) eqn:Eu; [|reflexivity].
      apply existsb_exists in Eu as [y [Hy Hd]].
      rewrite <- E. symmetry. apply existsb_exists. exists y. auto. }
    rewrite Eu. f_equal. apply IH. apply incl_app_app; [exact Hinc|apply incl_refl].
Qed.

(** Deduplicating an already deduplicated list changes nothing. *)
Theorem unique_schools_idempotent (normalized : list School.t) :
  unique_schools (unique_schools normalized) = unique_schools normalized.
Proof.
  rewrite !unique_schools_scan. apply keep_first_seen_incl. apply incl_refl.
Qed.

Lemma filter_from_in (self rest : list School.t) (k j : nat) (y : School.t) :
  drop k self = rest -> (k <= j)%nat -> self !! j = Some y -> keep_school self y j = true ->
  In y (filter_from self rest k).
Proof.
  revert k. induction rest as [|s rest IH]; intros k Hd Hkj Hj Hkeep.
  - exfalso. apply lookup_lt_Some in Hj.
    assert (Hl : length (drop k self) = 0%nat) by now rewrite Hd.
    rewrite length_drop in Hl. lia.
  - assert (Hk : self !! k = Some s).
    { rewrite <- (Nat.add_0_r k), <- lookup_drop, Hd. reflexivity. }
    assert (Hd' : drop (S k) self = rest).
    { rewrite <- Nat.add_1_r, <- drop_drop, Hd. reflexivity. }
    cbn [filter_from].
    destruct (Nat.eq_dec j k) as [->|Hne].
    + rewrite Hk in Hj. injection Hj as ->. rewrite Hkeep. now left.
    + assert (Hin : In y (filter_from self rest (S k))) by (apply IH; auto; lia).
      destruct (keep_school self s k); [now right|exact Hin].
Qed.

Lemma identified_school_represented (normalized : list School.t) (x : School.t) :
  In x normalized -> truthy (School.NCESSCH x) = true ->
  exists y, In y (unique_schools normalized)
            /\ strict_eq (School.NCESSCH y) (School.NCESSCH x) = true.
Proof.
  intros Hx Hid.
  apply list_elem_of_In, list_elem_of_lookup in Hx as [i Hi].
  revert x Hid Hi. induction i as [i IH] using lt_wf_ind. intros x Hid Hi.
  destruct (existsb (school_dup x) (take i normalized)) eqn:E.
  - apply existsb_exists in E as [y [Hy Hd]].
    apply list_elem_of_In, list_elem_of_lookup in Hy as [j Hj].
    apply lookup_take_Some in Hj as [Hj Hji].
    unfold school_dup in Hd. rewrite Hid in Hd.
    assert (Hidy : truthy (School.NCESSCH y) = true).
    { rewrite (strict_eq_truthy _ _ Hd). exact Hid. }
    destruct (IH j Hji y Hidy Hj) as [z [Hz Hzy]].
    exists z. split; [exact Hz|]. eapply strict_eq_trans; eauto.
  - exists x. split; [|apply strict_eq_refl].
    apply (filter_from_in normalized normalized 0 i); [reflexivity|lia|exact Hi|].
    rewrite (keep_school_first_seen _ _ _ Hi), E. reflexivity.
Qed.

(** No school with an identifier is lost: for every identified record
    of the merged list, a record with the same identifier is kept. *)
Theorem unique_schools_keeps_every_identifier (normalized : list School.t) (x : School.t)
  (Hx : In x normalized) (Hid : truthy (School.NCESSCH x) = true) :
  exists y, In y (unique_schools normalized)
            /\ strict_eq (School.NCESSCH y) (School.NCESSCH x) = true.
Proof. exact (identified_school_represented normalized x Hx Hid). Qed.

(** A record with an identifier is compared by identifier only: it is
    kept when no record before it has the same [NCESSCH]. *)
Lemma identified_school_kept (normalized : list School.t) (i : nat) (x : School.t) :
  normalized !! i = Some x -> truthy (School.NCESSCH x) = true ->
  (forall j y, (j < i)%nat -> normalized !! j = Some y ->
               strict_eq (School.NCESSCH y) (School.NCESSCH x) = false) ->
  In x (unique_schools normalized).
Proof.
  intros Hi Hid Hbefore.
  apply (filter_from_in normalized normalized 0 i); [reflexivity|lia|exact Hi|].
  rewrite (keep_school_first_seen _ _ _ Hi).
  destruct (existsb (school_dup x) (take i normalized)) eqn:E; [|reflexivity].
  apply existsb_exists in E as [y [Hy Hd]].
  apply list_elem_of_In, list_elem_of_lookup in Hy as [j Hj].
  apply lookup_take_Some in Hj as [Hj Hji].
  unfold school_dup in Hd. rewrite Hid in Hd.
  rewrite (Hbefore j y Hji Hj) in Hd. discriminate.
Qed.

(** In a list without a same-school pair, at most one record has a
    given non-empty identifier. *)
Lemma at_most_one_identifier (l : list School.t) (id : jsval) :
  truthy id = true ->
  ForallOrdPairs (fun x y => ~ same_school_pair x y) l ->
  (length (List.filter (fun y => strict_eq (School.NCESSCH y) id) l) <= 1)%nat.
Proof.
  intros Hid. induction l as [|a l IH]; intros Hp; [cbn; lia|].
  inversion Hp as [|? ? Ha Hl]; subst. cbn [List.filter].
  destruct (strict_eq (School.NCESSCH a) id) eqn:Ea; [|exact (IH Hl)].
  cbn [length].
  assert (Hnil : List.filter (fun y => strict_eq (School.NCESSCH y) id) l = []).
  { destruct (List.filter (fun y => strict_eq (School.NCESSCH y) id) l) as [|y r] eqn:Ef;
      [reflexivity|exfalso].
    assert (Hy : In y (List.filter (fun y => strict_eq (School.NCESSCH y) id) l))
      by (rewrite Ef; now left).
    apply filter_In in Hy as [Hy Ey].
    apply List.Forall_forall with (x := y) in Ha; [|exact Hy].
    apply Ha. left. split.
    - rewrite (strict_eq_truthy _ _ Ea). exact Hid.
    - apply (strict_eq_trans _ id); [exact Ea|]. rewrite strict_eq_sym. exact Ey. }
  rewrite Hnil. cbn. lia.
Qed.

(** C2 (as amended).  The deduplicated list of [searchSchools] keeps
    first-seen order (it is a sublist of the normalized records), never
    holds two records with the same non-empty identifier, and never
    holds a record without identifier after one with the same name,
    city and state.  A record with an identifier is compared by
    identifier only, and is kept whenever no record before it has the
    same [NCESSCH] (so it is kept after an unidentified record with the
    same name, city and state).  Every non-empty identifier of the
    merged list is carried by exactly one output record: the same
    [NCESSCH] from both sources yields one record. *)
Theorem unique_schools_order_and_duplicates (normalized : list School.t) :
  unique_schools normalized `sublist_of` normalized
  /\ ForallOrdPairs (fun x y => ~ same_school_pair x y) (unique_schools normalized)
  /\ (forall i x, normalized !! i = Some x -> truthy (School.NCESSCH x) = true ->
        (forall j y, (j < i)%nat -> normalized !! j = Some y ->
                     strict_eq (School.NCESSCH y) (School.NCESSCH x) = false) ->
        In x (unique_schools normalized))
  /\ (forall x, In x normalized -> truthy (School.NCESSCH x) = true ->
        length (List.filter (fun y => strict_eq (School.NCESSCH y) (School.NCESSCH x))
                  (unique_schools normalized)) = 1%nat).
Proof.
  assert (Hp : ForallOrdPairs (fun x y => ~ same_school_pair x y) (unique_schools normalized))
    by (apply filter_from_no_same_pair; reflexivity).
  split; [apply filter_from_sublist|]. split; [exact Hp|]. split.
  - exact (identified_school_kept normalized).
  - intros x Hx Hid.
    pose proof (at_most_one_identifier _ _ Hid Hp) as Hle.
    destruct (identified_school_represented normalized x Hx Hid) as (y & Hy & Ey).
    assert (Hin : In y (List.filter (fun y => strict_eq (School.NCESSCH y) (School.NCESSCH x))
                          (unique_schools normalized)))
      by (apply filter_In; auto).
    destruct (List.filter _ _) as [|z r]; [contradiction|]. cbn in Hle |- *. lia.
Qed.

(** *** Districts from [searchSchoolDistricts] *)

Lemma or_list_3_4 (a b c d : except jsval) (v : jsval) :
  or_list [a; b; c] = Ok v -> truthy v = true -> or_list [a; b; c; d] = Ok v.
Proof.
  cbn [or_list]. destruct a as [va|]; cbn [bind]; [|discriminate].
  destruct (truthy va); [auto|]. destruct b as [vb|]; cbn [bind]; [|discriminate].
  destruct (truthy vb); [auto|]. intros Hc Ht. rewrite Hc. cbn [bind]. now rewrite Ht.
Qed.

Lemma normalizeDistrict_LEAID (a : jsval) (d : District.t) :
  normalizeDistrictAttributes a = Ok d ->
  or_list [get a "LEAID"; get a "LEA_ID"; get a "LEA"; ret (JStr "")] = Ok (District.LEAID d).
Proof.
  intros H. unfold normalizeDistrictAttributes in H. inv_bind H.
  injection H as <-. cbn [District.LEAID]. first [assumption|reflexivity].
Qed.

Lemma ForallOrdPairs_snoc {A} (R : A -> A -> Prop) (l : list A) (x : A) :
  ForallOrdPairs R l -> Forall (fun a => R a x) l -> ForallOrdPairs R (l ++ [x]).
Proof.
  induction l as [|y l IH]; intros Hl Hx; simpl.
  - repeat constructor.
  - inversion Hl as [|? ? Hy Hl']; subst. inversion Hx as [|? ? Hyx Hx']; subst.
    constructor; [|now apply IH]. apply Forall_app. split; [exact Hy|]. now constructor.
Qed.

Lemma district_map_keys (fs : list jsval) :
  forall m m', district_map fs m = Ok m' ->
  ForallOrdPairs (fun a b => strict_eq (fst a) (fst b) = false) m ->
  Forall (fun kv => truthy (fst kv) = true /\ District.LEAID (snd kv) = fst kv) m ->
  ForallOrdPairs (fun a b => strict_eq (fst a) (fst b) = false) m'
  /\ Forall (fun kv => truthy (fst kv) = true /\ District.LEAID (snd kv) = fst kv) m'.
Proof.
  induction fs as [|f fs IH]; intros m m' H Hp Hq.
  - injection H as <-. auto.
  - cbn [district_map] in H. inv_bind H.
    destruct (truthy a0 && negb (map_has a0 m)) eqn:Hc; cbn [bind ret] in H.
    + inv_bind H. inv_bind E1. cbn [ret] in E1. injection E1 as <-. apply (IH _ _ H).
      * apply ForallOrdPairs_snoc; [exact Hp|].
        apply andb_true_iff in Hc as [_ Hn]. apply negb_true_iff in Hn.
        apply List.Forall_forall. intros kv Hkv. cbn [fst].
        destruct (strict_eq (fst kv) a0) eqn:Es; [|reflexivity].
        unfold map_has in Hn. rewrite <- Hn. symmetry.
        apply existsb_exists. exists kv. auto.
      * apply Forall_app. split; [exact Hq|]. constructor; [|constructor].
        apply andb_true_iff in Hc as [Ht _]. cbn [fst snd]. split; [exact Ht|].
        pose proof (normalizeDistrict_LEAID _ _ E2) as Hl.
        rewrite (or_list_3_4 _ _ _ (ret (JStr "")) _ E0 Ht) in Hl.
        injection Hl as Hl. symmetry. exact Hl.
    + injection E1 as <-. exact (IH _ _ H Hp Hq).
Qed.

Lemma distinct_leaids_map_snd (m : list (jsval * District.t)) :
  ForallOrdPairs (fun a b => strict_eq (fst a) (fst b) = false) m ->
  Forall (fun kv => truthy (fst kv) = true /\ District.LEAID (snd kv) = fst kv) m ->
  distinct_leaids (map snd m).
Proof.
  induction m as [|kv m IH]; intros Hp Hq; [split; constructor|].
  inversion Hp as [|? ? Hkv Hp']; subst. inversion Hq as [|? ? [Ht Hl] Hq']; subst.
  destruct (IH Hp' Hq') as [IHp IHq]. split; simpl; constructor; auto.
  - apply Forall_map. apply List.Forall_forall. intros kv' Hin.
    apply List.Forall_forall with (x := kv') in Hkv; [|exact Hin].
    apply List.Forall_forall with (x := kv') in Hq'; [|exact Hin].
    destruct Hq' as [_ Hl']. now rewrite Hl, Hl'.
  - now rewrite Hl.
Qed.

Lemma ForallOrdPairs_perm {A} (R : A -> A -> Prop) (l l' : list A) :
  (forall x y, R x y -> R y x) -> Permutation l l' -> ForallOrdPairs R l -> ForallOrdPairs R l'.
Proof.
  intros Hs Hperm. induction Hperm as [|x l l' Hp IH|x y l|l l' l'' _ IH1 _ IH2]; intros H.
  - exact H.
  - inversion H as [|? ? Hx Hl]; subst. constructor; [|now apply IH].
    apply List.Forall_forall. intros z Hz. apply List.Forall_forall with (x := z) in Hx; auto.
    now apply Permutation_in with (l := l'); [symmetry|].
  - inversion H as [|? ? Hy H1]; subst. inversion H1 as [|? ? Hx Hl]; subst.
    inversion Hy as [|? ? Hyx Hy']; subst.
    constructor; [constructor; [now apply Hs|exact Hx]|]. constructor; [exact Hy'|exact Hl].
  - auto.
Qed.

Lemma distinct_leaids_perm (l l' : list District.t) :
  Permutation l l' -> distinct_leaids l -> distinct_leaids l'.
Proof.
  intros Hp [H1 H2]. split.
  - eapply ForallOrdPairs_perm; [|exact Hp|exact H1].
    intros x y. now rewrite strict_eq_sym.
  - apply List.Forall_forall. intros d Hd.
    apply List.Forall_forall with (x := d) in H2; [exact H2|].
    apply Permutation_in with (l := l'); [now symmetry|exact Hd].
Qed.

Lemma search_districts_distinct (name : string) (net : request -> fetch_outcome)
  (res : list District.t) :
  snd (searchSchoolDistricts name net) = Fulfilled res -> distinct_leaids res.
Proof.
  unfold searchSchoolDistricts.
  destruct (String.eqb name "" || (String.length (trim name) <? 2)%nat); cbn [snd];
    intros H; injection H as <-; [split; constructor|].
  destruct (districts_after_fetch net (trim name)) as [l|e] eqn:E; cbn [try_catch];
    [|split; constructor].
  unfold districts_after_fetch in E. inv_bind E.
  destruct (district_map_keys _ [] _ E4 (FOP_nil _) (List.Forall_nil _)) as [Hp Hq].
  pose proof (distinct_leaids_map_snd _ Hp Hq) as Hd.
  unfold js_sort_districts in E.
  destruct (map snd a3) as [|d1 [|d2 ds]] eqn:Em.
  - injection E as <-. exact Hd.
  - injection E as <-. exact Hd.
  - exact (distinct_leaids_perm _ _ (sort_by_name_permutes _ _ E) Hd).
Qed.

(** Every district [searchSchoolDistricts] returns has an identifier,
    and no two of them have the same one ([===]), whatever the services
    answer: the first school seen with a district's identifier decides
    the record, later ones are skipped. *)
Theorem searchSchoolDistricts_distinct_leaids (name : string) (net : request -> fetch_outcome)
  (res : list District.t) :
  snd (searchSchoolDistricts name net) = Fulfilled res -> distinct_leaids res.
Proof.
  apply search_districts_distinct.
Qed.

(** *** The abort controllers *)

Lemma run_cleanup_ids (c : option nat) (ps : list pending) :
  map p_id (run_cleanup c ps) = map p_id ps.
Proof.
  destruct c as [id|]; [|reflexivity]. cbn [run_cleanup]. unfold abort_controller.
  rewrite map_map. apply map_ext. intros p. now destruct (Nat.eqb (p_id p) id).
Qed.

Lemma run_cleanup_in (c : option nat) (ps : list pending) (p' : pending) :
  In p' (run_cleanup c ps) ->
  exists p, In p ps /\ p_id p' = p_id p /\ p_query p' = p_query p
            /\ (p_aborted p' = false -> p_aborted p = false /\ c <> Some (p_id p)).
Proof.
  destruct c as [id|]; cbn [run_cleanup].
  - unfold abort_controller. rewrite in_map_iff. intros (p & <- & Hp).
    exists p. destruct (Nat.eqb (p_id p) id) eqn:E; cbn.
    + split; [exact Hp|]. split; [reflexivity|]. split; [reflexivity|].
      intros Hf. discriminate Hf.
    + split; [exact Hp|]. split; [reflexivity|]. split; [reflexivity|].
      intros Ha. split; [exact Ha|]. apply Nat.eqb_neq in E. congruence.
  - intros Hp. exists p'. split; [exact Hp|]. split; [reflexivity|]. split; [reflexivity|].
    intros Ha. split; [exact Ha|discriminate].
Qed.

Lemma run_cleanup_in_back (c : option nat) (ps : list pending) (p : pending) :
  In p ps -> exists p', In p' (run_cleanup c ps) /\ p_query p' = p_query p.
Proof.
  destruct c as [id|]; cbn [run_cleanup]; [|eauto].
  intros Hp. unfold abort_controller.
  exists (if Nat.eqb (p_id p) id then mkPending (p_id p) (p_query p) true else p).
  split; [apply in_map_iff; eauto|]. now destruct (Nat.eqb (p_id p) id).
Qed.

Lemma in_filter_id (id : nat) (ps : list pending) (p : pending) :
  In p (filter (fun p => negb (Nat.eqb (p_id p) id)) ps) <-> In p ps /\ p_id p <> id.
Proof.
  induction ps as [|x ps IH]; [cbn; tauto|].
  rewrite filter_cons. case_decide as Hd; cbn; rewrite ?IH.
  - destruct (Nat.eqb (p_id x) id) eqn:E; [contradiction|]. apply Nat.eqb_neq in E.
    split; [intros [<-|[]]; auto|intros [[<-|] ?]; auto].
  - destruct (Nat.eqb (p_id x) id) eqn:E; [|contradiction Hd; exact I].
    apply Nat.eqb_eq in E. split; [tauto|intros [[<-|] ?]; [contradiction|auto]].
Qed.

Lemma NoDup_filter_id (id : nat) (ps : list pending) :
  List.NoDup (map p_id ps) -> List.NoDup (map p_id (filter (fun p => negb (Nat.eqb (p_id p) id)) ps)).
Proof.
  induction ps as [|x ps IH]; [intros; constructor|].
  cbn [map]. intros Hn. inversion Hn as [|? ? Hx Hn']; subst.
  rewrite filter_cons. case_decide; [|now apply IH].
  cbn [map]. constructor; [|now apply IH].
  rewrite in_map_iff. intros (y & Hy & Hin). apply in_filter_id in Hin as [Hin _].
  apply Hx. rewrite in_map_iff. eauto.
Qed.

Lemma NoDup_snoc {A} (l : list A) (x : A) :
  List.NoDup l -> ~ In x l -> List.NoDup (l ++ [x]).
Proof.
  induction l as [|y l IH]; intros Hn Hx; cbn; [constructor; [auto|constructor]|].
  inversion Hn as [|? ? Hy Hn']; subst. constructor.
  - rewrite in_app_iff. intros [H|[H|[]]]; [contradiction|]. apply Hx. left. symmetry. exact H.
  - apply IH; [exact Hn'|]. intros H. apply Hx. right. exact H.
Qed.

Lemma NoDup_map_in {A B} (f : A -> B) (l : list A) (x y : A) :
  List.NoDup (map f l) -> In x l -> In y l -> f x = f y -> x = y.
Proof.
  induction l as [|z l IH]; [intros _ []|].
  cbn [map]. intros Hn Hx Hy Hf. inversion Hn as [|? ? Hz Hn']; subst.
  destruct Hx as [<-|Hx], Hy as [<-|Hy]; [reflexivity| | |auto].
  - exfalso. apply Hz. rewrite Hf. apply in_map. exact Hy.
  - exfalso. apply Hz. rewrite <- Hf. apply in_map. exact Hx.
Qed.

(** The state an effect starts from once the cleanup of its previous
    run has aborted that run's controller keeps the bookkeeping, and
    leaves no live search of the effect's own kind. *)
Lemma cleanup_keeps_others (st : home) (c : option nat) (p' : pending) :
  controllers_ok st -> In p' (run_cleanup c (inflight st)) -> p_aborted p' = false ->
  c <> Some (p_id p') /\ cleanup_for st (p_query p') = Some (p_id p')
  /\ (p_id p' < nextController st)%nat.
Proof.
  intros (_ & Hlt & Hlive & _) Hin Ha.
  destruct (run_cleanup_in _ _ _ Hin) as (p & Hp & Hid & Hq & Hab).
  destruct (Hab Ha) as [Ha' Hc]. rewrite Hid, Hq.
  split; [exact Hc|]. split; [now apply Hlive|now apply Hlt].
Qed.

Lemma settle_fields (id : nat) (o1 o2 : fetch_outcome) (st st' : home) (p : pending) :
  find (fun p => Nat.eqb (p_id p) id) (inflight st) = Some p ->
  settle id o1 o2 st = Ok st' ->
  inflight st' = filter (fun p => negb (Nat.eqb (p_id p) id)) (inflight st)
  /\ nextController st' = nextController st
  /\ districtCleanup st' = districtCleanup st
  /\ schoolCleanup st' = schoolCleanup st
  /\ loadingDistricts st' = (if is_district_query (p_query p) then false else loadingDistricts st)
  /\ loadingSchools st' = (if is_district_query (p_query p) then loadingSchools st else false).
Proof.
  intros Hf. unfold settle. rewrite Hf.
  destruct (p_query p) as [q|q lea key [sel|]]; cbn [is_district_query].
  - destruct (snd (searchSchoolDistricts q _)); intros H; injection H as <-; cbn;
      repeat split.
  - destruct (snd (searchSchools q lea _)); intros H; injection H as <-; cbn; [|repeat split].
    unfold school_then. destruct (school_still_exists sel _); cbn; repeat split.
  - destruct (snd (searchSchools q lea _)); intros H; injection H as <-; cbn; repeat split.
Qed.

Lemma controllers_ok_step (st st' : home) (ev : event) :
  controllers_ok st -> step st ev = Ok st' -> controllers_ok st'.
Proof.
  intros Hok. pose proof Hok as (Hnd & Hlt & Hlive & Hld & Hls).
  destruct ev as [q|q| | | |leaId|s|id o1 o2]; cbn [step].
  - intros H. injection H as <-. exact Hok.
  - intros H. injection H as <-. exact Hok.
  - intros H. injection H as <-. exact Hok.
  - (* the district effect *)
    unfold district_effect. cbn -[inherited_member].
    assert (Hold : forall p', In p' (run_cleanup (districtCleanup st) (inflight st)) ->
                   p_aborted p' = false ->
                   is_district_query (p_query p') = false
                   /\ schoolCleanup st = Some (p_id p')
                   /\ (p_id p' < nextController st)%nat).
    { intros p' Hin Ha. destruct (cleanup_keeps_others _ _ _ Hok Hin Ha) as (Hc & Hcl & Hl).
      unfold cleanup_for in Hcl. destruct (is_district_query (p_query p')); [contradiction|].
      auto. }
    assert (Hids : forall p', In p' (run_cleanup (districtCleanup st) (inflight st)) ->
                   (p_id p' < nextController st)%nat).
    { intros p' Hin. destruct (run_cleanup_in _ _ _ Hin) as (p & Hp & -> & _). auto. }
    assert (Hex : forall b, (exists p, In p (inflight st) /\ is_district_query (p_query p) = b) ->
                  exists p, In p (run_cleanup (districtCleanup st) (inflight st))
                            /\ is_district_query (p_query p) = b).
    { intros b (p & Hp & Hb). destruct (run_cleanup_in_back (districtCleanup st) _ _ Hp)
        as (p' & Hp' & Hq). exists p'. rewrite Hq. auto. }
    pose proof (run_cleanup_ids (districtCleanup st) (inflight st)) as Hm.
    destruct (too_short _); [|destruct (_ !! _)].
    + intros H. injection H as <-. repeat split; cbn; [rewrite Hm; exact Hnd|exact Hids| | |].
      * intros p' Hin Ha. destruct (Hold _ Hin Ha) as (Hk & Hs & _).
        unfold cleanup_for. rewrite Hk. exact Hs.
      * intros Hl. apply Hex. auto.
      * intros Hl. apply Hex. auto.
    + intros H. injection H as <-. repeat split; cbn; [rewrite Hm; exact Hnd|exact Hids| | |].
      * intros p' Hin Ha. destruct (Hold _ Hin Ha) as (Hk & Hs & _).
        unfold cleanup_for. rewrite Hk. exact Hs.
      * intros Hl. apply Hex. auto.
      * intros Hl. apply Hex. auto.
    + destruct (inherited_member _); [discriminate|].
      intros H. injection H as <-. repeat split; cbn.
      * rewrite map_app, Hm. apply NoDup_snoc; [exact Hnd|].
        rewrite <- Hm, in_map_iff. intros (p' & Heq & Hin). apply Hids in Hin. cbn in Heq. lia.
      * intros p' Hin. apply in_app_iff in Hin as [Hin|[<-|[]]]; [apply Hids in Hin|cbn]; lia.
      * intros p' Hin Ha. apply in_app_iff in Hin as [Hin|[<-|[]]]; [|reflexivity].
        destruct (Hold _ Hin Ha) as (Hk & Hs & _). unfold cleanup_for. rewrite Hk. exact Hs.
      * intros _. exists (mkPending (nextController st) (QDistrict (trim (debouncedDistrictQuery st))) false).
        split; [apply in_app_iff; right; left; reflexivity|reflexivity].
      * intros Hl. destruct (Hex _ (Hls Hl)) as (p & Hp & Hb). exists p.
        split; [apply in_app_iff; left; exact Hp|exact Hb].
  - (* the school effect *)
    unfold school_effect. cbn.
    assert (Hold : forall p', In p' (run_cleanup (schoolCleanup st) (inflight st)) ->
                   p_aborted p' = false ->
                   is_district_query (p_query p') = true
                   /\ districtCleanup st = Some (p_id p')
                   /\ (p_id p' < nextController st)%nat).
    { intros p' Hin Ha. destruct (cleanup_keeps_others _ _ _ Hok Hin Ha) as (Hc & Hcl & Hl).
      unfold cleanup_for in Hcl. destruct (is_district_query (p_query p')); [|contradiction].
      auto. }
    assert (Hids : forall p', In p' (run_cleanup (schoolCleanup st) (inflight st)) ->
                   (p_id p' < nextController st)%nat).
    { intros p' Hin. destruct (run_cleanup_in _ _ _ Hin) as (p & Hp & -> & _). auto. }
    assert (Hex : forall b, (exists p, In p (inflight st) /\ is_district_query (p_query p) = b) ->
                  exists p, In p (run_cleanup (schoolCleanup st) (inflight st))
                            /\ is_district_query (p_query p) = b).
    { intros b (p & Hp & Hb). destruct (run_cleanup_in_back (schoolCleanup st) _ _ Hp)
        as (p' & Hp' & Hq). exists p'. rewrite Hq. auto. }
    pose proof (run_cleanup_ids (schoolCleanup st) (inflight st)) as Hm.
    destruct (_ && _).
    + intros H. injection H as <-. repeat split; cbn; [rewrite Hm; exact Hnd|exact Hids| | |].
      * intros p' Hin Ha. destruct (Hold _ Hin Ha) as (Hk & Hs & _).
        unfold cleanup_for. rewrite Hk. exact Hs.
      * intros Hl. apply Hex. auto.
      * intros Hl. apply Hex. auto.
    + destruct (to_string _) as [k|e]; cbn [bind]; [|discriminate].
      destruct (_ !! _).
      * intros H. injection H as <-. repeat split; cbn; [rewrite Hm; exact Hnd|exact Hids| | |].
        -- intros p' Hin Ha. destruct (Hold _ Hin Ha) as (Hk & Hs & _).
           unfold cleanup_for. rewrite Hk. exact Hs.
        -- intros Hl. apply Hex. auto.
        -- intros Hl. apply Hex. auto.
      * intros H. injection H as <-. repeat split; cbn.
        -- rewrite map_app, Hm. apply NoDup_snoc; [exact Hnd|].
           rewrite <- Hm, in_map_iff. intros (p' & Heq & Hin). apply Hids in Hin. cbn in Heq. lia.
        -- intros p' Hin. apply in_app_iff in Hin as [Hin|[<-|[]]]; [apply Hids in Hin|cbn]; lia.
        -- intros p' Hin Ha. apply in_app_iff in Hin as [Hin|[<-|[]]]; [|reflexivity].
           destruct (Hold _ Hin Ha) as (Hk & Hs & _). unfold cleanup_for. rewrite Hk. exact Hs.
        -- intros Hl. destruct (Hex _ (Hld Hl)) as (p & Hp & Hb). exists p.
           split; [apply in_app_iff; left; exact Hp|exact Hb].
        -- intros _. eexists. split; [apply in_app_iff; right; left; reflexivity|reflexivity].
  - intros H. unfold handleDistrictChange in H. injection H as <-. exact Hok.
  - intros H. injection H as <-. exact Hok.
  - (* a search settles *)
    intros H. destruct (find (fun p => Nat.eqb (p_id p) id) (inflight st)) as [p|] eqn:Hf.
    2:{ unfold settle in H. rewrite Hf in H. injection H as <-. exact Hok. }
    destruct (settle_fields _ _ _ _ _ _ Hf H) as (Hi & Hn & Hdc & Hsc & Hld' & Hls').
    apply find_some in Hf as [Hp Hpid]. apply Nat.eqb_eq in Hpid.
    assert (Hkeep : forall p', In p' (inflight st) ->
                    is_district_query (p_query p') <> is_district_query (p_query p) ->
                    In p' (inflight st')).
    { intros p' Hin Hk. rewrite Hi. apply in_filter_id. split; [exact Hin|].
      intros He. apply Hk. rewrite (NoDup_map_in p_id _ p' p Hnd Hin Hp); [reflexivity|congruence]. }
    repeat split.
    + rewrite Hi. now apply NoDup_filter_id.
    + intros p' Hin. rewrite Hi in Hin. apply in_filter_id in Hin as [Hin _].
      rewrite Hn. now apply Hlt.
    + intros p' Hin Ha. rewrite Hi in Hin. apply in_filter_id in Hin as [Hin _].
      unfold cleanup_for. rewrite Hdc, Hsc. exact (Hlive _ Hin Ha).
    + rewrite Hld'. destruct (is_district_query (p_query p)) eqn:Ek; [discriminate|].
      intros Hl. destruct (Hld Hl) as (p' & Hp' & Hk). exists p'. split; [|exact Hk].
      apply Hkeep; [exact Hp'|congruence].
    + rewrite Hls'. destruct (is_district_query (p_query p)) eqn:Ek; [|discriminate].
      intros Hl. destruct (Hls Hl) as (p' & Hp' & Hk). exists p'. split; [|exact Hk].
      apply Hkeep; [exact Hp'|congruence].
Qed.

Lemma controllers_ok_run (evs : list event) :
  forall st st', controllers_ok st -> run st evs = Ok st' -> controllers_ok st'.
Proof.
  induction evs as [|ev evs IH]; intros st st' Hok H; cbn [run] in H.
  - injection H as <-. exact Hok.
  - destruct (step st ev) as [st1|e] eqn:Es; cbn [bind] in H; [|discriminate].
    exact (IH _ _ (controllers_ok_step _ _ _ Hok Es) H).
Qed.

Lemma controllers_ok_reachable (evs : list event) (st : home) :
  run initial_home evs = Ok st -> controllers_ok st.
Proof.
  apply controllers_ok_run. repeat split; cbn; try constructor; try discriminate; tauto.
Qed.

(** Each field has at most one search in flight whose controller has not
    been aborted, and that search is the one the pending cleanup of its
    effect aborts: a district search is aborted by the next run of the
    district effect, a school search by the next run of the school
    effect. *)
Theorem live_search_is_cleanup_target (evs : list event) (st : home) (p : pending)
  (H : run initial_home evs = Ok st) (Hp : In p (inflight st)) (Ha : p_aborted p = false) :
  (if is_district_query (p_query p) then districtCleanup st else schoolCleanup st)
  = Some (p_id p).
Proof.
  destruct (controllers_ok_reachable _ _ H) as (_ & _ & Hlive & _).
  exact (Hlive _ Hp Ha).
Qed.

(** Two searches in flight for the same field whose controllers were
    not aborted are the same search: a new search always aborts the
    previous live one of its field. *)
Theorem one_live_search_per_field (evs : list event) (st : home) (p1 p2 : pending)
  (H : run initial_home evs = Ok st) (H1 : In p1 (inflight st)) (H2 : In p2 (inflight st))
  (Ha1 : p_aborted p1 = false) (Ha2 : p_aborted p2 = false)
  (Hk : is_district_query (p_query p1) = is_district_query (p_query p2)) :
  p1 = p2.
Proof.
  destruct (controllers_ok_reachable _ _ H) as (Hnd & _ & Hlive & _).
  pose proof (Hlive _ H1 Ha1) as E1. pose proof (Hlive _ H2 Ha2) as E2.
  unfold cleanup_for in E1, E2. rewrite Hk in E1. rewrite E1 in E2. injection E2 as E2.
  exact (NoDup_map_in p_id _ _ _ Hnd H1 H2 E2).
Qed.

(** A spinner is only shown while a search of its field is in flight. *)
Theorem spinner_implies_search_in_flight (evs : list event) (st : home)
  (H : run initial_home evs = Ok st) :
  (loadingDistricts st = true ->
     exists p, In p (inflight st) /\ is_district_query (p_query p) = true)
  /\ (loadingSchools st = true ->
     exists p, In p (inflight st) /\ is_district_query (p_query p) = false).
Proof.
  destruct (controllers_ok_reachable _ _ H) as (_ & _ & _ & Hld & Hls). auto.
Qed.

(** The settling of any district search, an aborted one included, turns
    the district spinner off, while every other search stays in
    flight: a stale search settling hides the spinner of the current
    one. *)
Theorem district_settle_stops_spinner (evs : list event) (st st' : home) (p : pending)
  (o1 o2 : fetch_outcome)
  (H : run initial_home evs = Ok st) (Hp : In p (inflight st))
  (Hk : is_district_query (p_query p) = true)
  (Hs : settle (p_id p) o1 o2 st = Ok st') :
  loadingDistricts st' = false
  /\ forall p', In p' (inflight st) -> p' <> p -> In p' (inflight st').
Proof.
  destruct (controllers_ok_reachable _ _ H) as (Hnd & _).
  destruct (find (fun p' => Nat.eqb (p_id p') (p_id p)) (inflight st)) as [p0|] eqn:Hf.
  2:{ exfalso. eapply find_none in Hf; [|exact Hp]. rewrite Nat.eqb_refl in Hf. discriminate. }
  pose proof Hf as Hf'. apply find_some in Hf' as [Hp0 Hid]. apply Nat.eqb_eq in Hid.
  assert (p0 = p) as -> by exact (NoDup_map_in p_id _ _ _ Hnd Hp0 Hp Hid).
  destruct (settle_fields _ _ _ _ _ _ Hf Hs) as (Hi & _ & _ & _ & Hld & _).
  split; [rewrite Hld, Hk; reflexivity|].
  intros p' Hin Hne. rewrite Hi. apply in_filter_id. split; [exact Hin|].
  intros He. apply Hne. exact (NoDup_map_in p_id _ _ _ Hnd Hin Hp He).
Qed.

(** *** The district list and its options *)

Lemma school_effect_districts (st st' : home) :
  school_effect st = Ok st' ->
  districts st' = districts st /\ districtCache st' = districtCache st.
Proof.
  unfold school_effect. cbn. destruct (_ && _).
  - intros H. injection H as <-. auto.
  - destruct (to_string _); cbn [bind]; [|discriminate].
    destruct (_ !! _); intros H; injection H as <-; auto.
Qed.

Lemma settle_districts (id : nat) (o1 o2 : fetch_outcome) (st st' : home) :
  settle id o1 o2 st = Ok st' ->
  (districts st' = districts st /\ districtCache st' = districtCache st)
  \/ exists q net res, snd (searchSchoolDistricts q net) = Fulfilled res
                       /\ districts st' = res
                       /\ districtCache st' = <[q := res]> (districtCache st).
Proof.
  unfold settle. destruct (find _ (inflight st)) as [p|];
    [|intros H; injection H as <-; auto].
  destruct (p_query p) as [q|q lea key [sel|]].
  - destruct (snd (searchSchoolDistricts q _)) as [res|e] eqn:E;
      intros H; injection H as <-; [right|left; auto].
    do 3 eexists. split; [exact E|]. cbn. auto.
  - destruct (snd (searchSchools q lea _)); intros H; injection H as <-; cbn; [|auto].
    unfold school_then. destruct (school_still_exists sel _); cbn; auto.
  - destruct (snd (searchSchools q lea _)); intros H; injection H as <-; cbn; auto.
Qed.

Lemma districts_ok_step (st st' : home) (ev : event) :
  districts_ok st -> step st ev = Ok st' -> districts_ok st'.
Proof.
  intros Hok. pose proof Hok as [Hd Hc].
  destruct ev as [q|q| | | |leaId|s|id o1 o2]; cbn [step].
  - intros H. injection H as <-. exact Hok.
  - intros H. injection H as <-. exact Hok.
  - intros H. injection H as <-. exact Hok.
  - unfold district_effect. cbn -[inherited_member]. destruct (too_short _); [|destruct (_ !! _) eqn:E].
    + intros H. injection H as <-. split; [split; constructor|exact Hc].
    + intros H. injection H as <-. split; [exact (Hc _ _ E)|exact Hc].
    + destruct (inherited_member _); [discriminate|].
      intros H. injection H as <-. exact Hok.
  - intros H. destruct (school_effect_districts _ _ H) as [E1 E2].
    unfold districts_ok. rewrite E1, E2. exact Hok.
  - intros H. unfold handleDistrictChange in H. injection H as <-. exact Hok.
  - intros H. injection H as <-. exact Hok.
  - intros H. unfold districts_ok. destruct (settle_districts _ _ _ _ _ H)
      as [[E1 E2]|(q & net & res & Hr & E1 & E2)]; rewrite E1, E2; [exact Hok|].
    pose proof (search_districts_distinct _ _ _ Hr) as Hres.
    split; [exact Hres|]. intros q' ds Hl.
    apply lookup_insert_Some in Hl as [[_ <-]|[_ Hl]]; [exact Hres|exact (Hc _ _ Hl)].
Qed.

Lemma districts_ok_reachable (evs : list event) (st : home) :
  run initial_home evs = Ok st -> districts_ok st.
Proof.
  assert (Hrun : forall evs st st', districts_ok st -> run st evs = Ok st' -> districts_ok st').
  { induction evs0 as [|ev evs0 IH]; intros st0 st' Hok H; cbn [run] in H.
    - injection H as <-. exact Hok.
    - destruct (step st0 ev) as [st1|e] eqn:Es; cbn [bind] in H; [|discriminate].
      exact (IH _ _ (districts_ok_step _ _ _ Hok Es) H). }
  apply Hrun. split; [split; constructor|]. intros q ds Hl. discriminate Hl.
Qed.

Lemma distinct_leaids_in (l : list District.t) (a b : District.t) :
  distinct_leaids l -> In a l -> In b l ->
  strict_eq (District.LEAID a) (District.LEAID b) = true -> a = b.
Proof.
  intros [Hp _]. revert a b. induction Hp as [|x l Hx Hp IH]; intros a b Ha Hb Hab;
    [destruct Ha|].
  destruct Ha as [<-|Ha], Hb as [<-|Hb]; [reflexivity| | |auto].
  - apply List.Forall_forall with (x := b) in Hx; [|exact Hb]. congruence.
  - apply List.Forall_forall with (x := a) in Hx; [|exact Ha].
    rewrite strict_eq_sym in Hx. congruence.
Qed.

(** The district list never holds two districts with the same
    identifier, and every district in it has one: whatever the
    services answered, and whichever searches settled in which order. *)
Theorem shown_districts_distinct (evs : list event) (st : home)
  (H : run initial_home evs = Ok st) :
  distinct_leaids (districts st).
Proof.
  exact (proj1 (districts_ok_reachable _ _ H)).
Qed.

(** Choosing a listed district's option in the [Select] selects that
    district exactly when its identifier is a string; a district whose
    identifier is of another type (a number, say) is never selected,
    since [handleDistrictChange] compares the option's string value
    with [===]. *)
Theorem district_option_round_trip (evs : list event) (st st' : home) (d : District.t)
  (v : string)
  (H : run initial_home evs = Ok st) (Hd : In d (districts st))
  (Hv : district_option_value d = Ok v) (Hc : handleDistrictChange v st = Ok st') :
  selectedDistrict st' = Some d <-> exists s, District.LEAID d = JStr s.
Proof.
  pose proof (proj1 (districts_ok_reachable _ _ H)) as Hdist.
  pose proof Hdist as [_ Ht]. apply List.Forall_forall with (x := d) in Ht; [|exact Hd].
  unfold handleDistrictChange in Hc. injection Hc as <-. cbn.
  split.
  - destruct (String.eqb v "") ; [discriminate|].
    intros Hf. apply find_some in Hf as [_ Hf]. apply strict_eq_JStr in Hf. eauto.
  - intros [s Hs]. unfold district_option_value, js_or in Hv.
    rewrite Ht, Hs in Hv. cbn in Hv. injection Hv as <-.
    rewrite Hs in Ht. cbn in Ht. destruct (String.eqb s "") eqn:Es; [discriminate|].
    destruct (find (fun d' => strict_eq (District.LEAID d') (JStr s)) (districts st))
      as [d'|] eqn:Hf.
    + apply find_some in Hf as [Hd' Hf]. f_equal.
      apply (distinct_leaids_in _ _ _ Hdist Hd' Hd). rewrite Hs. exact Hf.
    + eapply find_none in Hf; [|exact Hd]. rewrite Hs, strict_eq_refl in Hf. discriminate.
Qed.

(** *** The district cache *)

Lemma settle_district_cache (id : nat) (o1 o2 : fetch_outcome) (st st' : home) :
  settle id o1 o2 st = Ok st' ->
  districtCache st' = districtCache st
  \/ exists p q res, In p (inflight st) /\ p_query p = QDistrict q
                     /\ districtCache st' = <[q := res]> (districtCache st).
Proof.
  unfold settle. destruct (find _ (inflight st)) as [p|] eqn:Hf;
    [|intros H; injection H as <-; auto].
  apply find_some in Hf as [Hp _].
  destruct (p_query p) as [q|q lea key [sel|]] eqn:Hq.
  - destruct (snd (searchSchoolDistricts q _)) as [res|e];
      intros H; injection H as <-; [right|left; reflexivity].
    exists p, q, res. auto.
  - destruct (snd (searchSchools q lea _)); intros H; injection H as <-; cbn; [|auto].
    unfold school_then. destruct (school_still_exists sel _); cbn; auto.
  - destruct (snd (searchSchools q lea _)); intros H; injection H as <-; cbn; auto.
Qed.

Lemma district_queries_ok_step (st st' : home) (ev : event) :
  district_queries_ok st -> step st ev = Ok st' -> district_queries_ok st'.
Proof.
  intros Hok. pose proof Hok as [Hp Hc].
  assert (Hcl : forall c p q, In p (run_cleanup c (inflight st)) -> p_query p = QDistrict q ->
                too_short q = false /\ trim q = q).
  { intros c p q Hin Hq. destruct (run_cleanup_in _ _ _ Hin) as (p0 & Hp0 & _ & Hq0 & _).
    rewrite Hq0 in Hq. exact (Hp _ _ Hp0 Hq). }
  destruct ev as [q|q| | | |leaId|s|id o1 o2]; cbn [step].
  - intros H. injection H as <-. exact Hok.
  - intros H. injection H as <-. exact Hok.
  - intros H. injection H as <-. exact Hok.
  - unfold district_effect. cbn -[inherited_member]. destruct (too_short _) eqn:Es; [|destruct (_ !! _)].
    + intros H. injection H as <-. split; [exact (Hcl _)|exact Hc].
    + intros H. injection H as <-. split; [exact (Hcl _)|exact Hc].
    + destruct (inherited_member _); [discriminate|].
      intros H. injection H as <-. split; [|exact Hc]. cbn.
      intros p q Hin Hq. apply in_app_iff in Hin as [Hin|[<-|[]]]; [exact (Hcl _ _ _ Hin Hq)|].
      cbn in Hq. injection Hq as <-. split; [exact Es|apply trim_idem].
  - unfold school_effect. cbn. destruct (_ && _).
    + intros H. injection H as <-. split; [exact (Hcl _)|exact Hc].
    + destruct (to_string _); cbn [bind]; [|discriminate]. destruct (_ !! _).
      * intros H. injection H as <-. split; [exact (Hcl _)|exact Hc].
      * intros H. injection H as <-. split; [|exact Hc]. cbn.
        intros p q Hin Hq. apply in_app_iff in Hin as [Hin|[<-|[]]];
          [exact (Hcl _ _ _ Hin Hq)|discriminate Hq].
  - intros H. unfold handleDistrictChange in H. injection H as <-. exact Hok.
  - intros H. injection H as <-. exact Hok.
  - intros H. split.
    + intros p q Hin Hq. destruct (find (fun p => Nat.eqb (p_id p) id) (inflight st))
        as [p0|] eqn:Hf.
      * destruct (settle_fields _ _ _ _ _ _ Hf H) as (Hi & _). rewrite Hi in Hin.
        apply in_filter_id in Hin as [Hin _]. exact (Hp _ _ Hin Hq).
      * unfold settle in H. rewrite Hf in H. injection H as <-. exact (Hp _ _ Hin Hq).
    + destruct (settle_district_cache _ _ _ _ _ H) as [E|(p & q & res & Hin & Hq & E)];
        rewrite E; [exact Hc|].
      intros q' ds Hl. apply lookup_insert_Some in Hl as [[<- _]|[_ Hl]];
        [exact (Hp _ _ Hin Hq)|exact (Hc _ _ Hl)].
Qed.

Lemma district_queries_ok_reachable (evs : list event) (st : home) :
  run initial_home evs = Ok st -> district_queries_ok st.
Proof.
  assert (Hrun : forall evs st st', district_queries_ok st -> run st evs = Ok st' ->
                 district_queries_ok st').
  { induction evs0 as [|ev evs0 IH]; intros st0 st' Hok H; cbn [run] in H.
    - injection H as <-. exact Hok.
    - destruct (step st0 ev) as [st1|e] eqn:Es; cbn [bind] in H; [|discriminate].
      exact (IH _ _ (district_queries_ok_step _ _ _ Hok Es) H). }
  apply Hrun. split; [intros p q []|]. intros q ds Hl. discriminate Hl.
Qed.

(** The district cache only stores results under trimmed queries of at
    least two characters: the district effect never caches, nor serves
    from the cache, a query it would not search. *)
Theorem district_cache_keys (evs : list event) (st : home) (q : string)
  (ds : list District.t)
  (H : run initial_home evs = Ok st) (Hl : districtCache st !! q = Some ds) :
  too_short q = false /\ trim q = q.
Proof.
  exact (proj2 (district_queries_ok_reachable _ _ H) _ _ Hl).
Qed.

(** Once a district search for [q] has settled with [res], the district
    effect run for any text that trims to [q] shows [res] from the
    cache: it issues no request, and only aborts the controller its
    previous run left. *)
Theorem district_cache_round_trip (evs : list event) (st st1 st2 : home) (p : pending)
  (q t : string) (o1 o2 : fetch_outcome) (res : list District.t)
  (H : run initial_home evs = Ok st) (Hp : In p (inflight st))
  (Hq : p_query p = QDistrict q)
  (Hres : snd (searchSchoolDistricts q (net_of (p_aborted p) o1 o2)) = Fulfilled res)
  (Hs : settle (p_id p) o1 o2 st = Ok st1) (Ht : trim t = q)
  (He : district_effect (set_debouncedDistrictQuery t st1) = Ok st2) :
  districts st2 = res /\ nextController st2 = nextController st1
  /\ inflight st2 = run_cleanup (districtCleanup st1) (inflight st1)
  /\ districtCleanup st2 = None.
Proof.
  destruct (controllers_ok_reachable _ _ H) as (Hnd & _).
  destruct (proj1 (district_queries_ok_reachable _ _ H) _ _ Hp Hq) as [Hshort _].
  destruct (find (fun p' => Nat.eqb (p_id p') (p_id p)) (inflight st)) as [p0|] eqn:Hf.
  2:{ exfalso. eapply find_none in Hf; [|exact Hp]. rewrite Nat.eqb_refl in Hf. discriminate. }
  pose proof Hf as Hf'. apply find_some in Hf' as [Hp0 Hid]. apply Nat.eqb_eq in Hid.
  assert (p0 = p) as -> by exact (NoDup_map_in p_id _ _ _ Hnd Hp0 Hp Hid).
  unfold settle in Hs. rewrite Hf, Hq, Hres in Hs. injection Hs as <-.
  unfold district_effect in He. cbn -[inherited_member] in He. fold (trim t) in He. rewrite Ht, Hshort in He.
  rewrite lookup_insert_eq in He. injection He as <-. cbn. auto.
Qed.

(** *** The school list *)

Lemma search_schools_no_dup (name : string) (lea : jsval) (net : request -> fetch_outcome)
  (res : list School.t) :
  snd (searchSchools name lea net) = Fulfilled res ->
  ForallOrdPairs (fun x y => ~ same_school_pair x y) res.
Proof.
  unfold searchSchools. destruct (school_where name lea) as [w|e]; cbn [snd];
    intros H; injection H as <-; [|constructor].
  destruct (schools_after_fetch net w) as [l|e] eqn:E; cbn [try_catch]; [|constructor].
  unfold schools_after_fetch in E. inv_bind E. injection E as <-.
  apply filter_from_no_same_pair. reflexivity.
Qed.

Lemma schools_ok_step (st st' : home) (ev : event) :
  schools_ok st -> step st ev = Ok st' -> schools_ok st'.
Proof.
  intros Hok. pose proof Hok as [Hs Hc].
  destruct ev as [q|q| | | |leaId|s|id o1 o2]; cbn [step].
  - intros H. injection H as <-. exact Hok.
  - intros H. injection H as <-. exact Hok.
  - intros H. injection H as <-. exact Hok.
  - unfold district_effect. cbn -[inherited_member]. destruct (too_short _); [|destruct (_ !! _)];
      [| |destruct (inherited_member _); [discriminate|]];
      intros H; injection H as <-; exact Hok.
  - unfold school_effect. cbn. destruct (_ && _).
    + intros H. injection H as <-. split; [constructor|exact Hc].
    + destruct (to_string _); cbn [bind]; [|discriminate]. destruct (_ !! _) eqn:E.
      * intros H. injection H as <-. split; [exact (Hc _ _ E)|exact Hc].
      * intros H. injection H as <-. exact Hok.
  - intros H. unfold handleDistrictChange in H. injection H as <-.
    split; [exact Hs|]. cbn. intros k ss Hl.
    apply lookup_delete_Some in Hl as [_ Hl]. exact (Hc _ _ Hl).
  - intros H. injection H as <-. exact Hok.
  - unfold settle. destruct (find _ (inflight st)) as [p|];
      [|intros H; injection H as <-; exact Hok].
    destruct (p_query p) as [q|q lea key captured].
    + destruct (snd (searchSchoolDistricts q _)); intros H; injection H as <-; exact Hok.
    + destruct (snd (searchSchools q lea _)) as [res|e] eqn:Er;
        intros H; injection H as <-; [|exact Hok].
      pose proof (search_schools_no_dup _ _ _ _ Er) as Hres.
      assert (Hst : schools_ok (set_schoolCache (<[key := res]> (schoolCache
                      (set_inflight (filter (fun p => negb (Nat.eqb (p_id p) id)) (inflight st)) st)))
                      (set_schools res
                      (set_inflight (filter (fun p => negb (Nat.eqb (p_id p) id)) (inflight st)) st)))).
      { split; [exact Hres|]. cbn. intros k ss Hl.
        apply lookup_insert_Some in Hl as [[_ <-]|[_ Hl]]; [exact Hres|exact (Hc _ _ Hl)]. }
      unfold school_then. destruct captured as [sel|]; [destruct (school_still_exists sel res)|];
        exact Hst.
Qed.

(** The school list never holds two records that the deduplication of
    [searchSchools] would count as the same school, whether it was
    filled by a search or from the cache. *)
Theorem shown_schools_no_duplicates (evs : list event) (st : home)
  (H : run initial_home evs = Ok st) :
  ForallOrdPairs (fun x y => ~ same_school_pair x y) (schools st).
Proof.
  assert (Hrun : forall evs st st', schools_ok st -> run st evs = Ok st' -> schools_ok st').
  { induction evs0 as [|ev evs0 IH]; intros st0 st' Hok H0; cbn [run] in H0.
    - injection H0 as <-. exact Hok.
    - destruct (step st0 ev) as [st1|e] eqn:Es; cbn [bind] in H0; [|discriminate].
      exact (IH _ _ (schools_ok_step _ _ _ Hok Es) H0). }
  refine (proj1 (Hrun _ _ _ _ H)). split; [constructor|]. intros k ss Hl. discriminate Hl.
Qed.

End Engine.

(* ------------------------------------------------------------------ *)
(** ** Concrete instances *)

(** Splits a conjunction of concrete facts and evaluates each. *)
Ltac solve_concrete :=
  repeat match goal with |- _ /\ _ => split end; vm_compute; reflexivity.

(** C2: an identified school after its unidentified twin is kept. *)
Lemma identified_school_kept_after_unidentified_twin :
  exists x y,
    snd (searchSchools sample_number_to_string "Lincoln" JUndef
           (two_sources (sample_answer 64 [unidentified_private_school])
                        (sample_answer 66 [identified_public_school])))
    = Fulfilled [x; y]
    /\ School.NCESSCH x = JStr "" /\ School.NCESSCH y = JStr "190001"
    /\ School.NAME x = School.NAME y /\ School.CITY x = School.CITY y
    /\ School.STATE x = School.STATE y.
Proof. do 2 eexists. solve_concrete. Qed.

(** C3: a short query is searched by [short_query_searches]. *)
Lemma short_query_searches_witness :
  (String.length (trim " a") < 2)%nat
  /\ searchSchoolDistricts sample_number_to_string sample_sort " a" (fun _ => FNetworkError)
     = ([], Fulfilled []).
Proof.
  assert (H : (String.length (trim " a") < 2)%nat) by (apply Nat.ltb_lt; vm_compute; reflexivity).
  split; [exact H|].
  exact (proj1 (short_query_searches sample_number_to_string sample_sort " a"
                  (fun _ => FNetworkError) initial_home H)).
Defined.

(** C3: with an empty text and no district filter, [searchSchools]
    fetches from both services and returns their schools. *)
Lemma short_school_query_fetches_everything :
  fst (searchSchools sample_number_to_string "" JUndef
         (two_sources (sample_answer 64 [unidentified_private_school])
                      (sample_answer 66 [identified_public_school])))
  = [mkRequest PrivateSchools "1=1" 100; mkRequest PublicSchools "1=1" 100]
  /\ snd (searchSchools sample_number_to_string "" JUndef
           (two_sources (sample_answer 64 [unidentified_private_school])
                        (sample_answer 66 [identified_public_school])))
     <> Fulfilled [].
Proof.
  split; [vm_compute; reflexivity|].
  intros E. vm_compute in E. discriminate E.
Qed.

(** C5: selecting district [D1] with no district selected before. *)
Lemma district_change_evicts_new_filter_key_witness :
  exists st', handleDistrictChange "D1" cached_school_state = Ok st'
              /\ schoolCache st' !! "D1-ab" = None.
Proof.
  assert (H : exists st', handleDistrictChange "D1" cached_school_state = Ok st')
    by (eexists; vm_compute; reflexivity).
  destruct H as [st' H]. exists st'. split; [exact H|].
  exact (proj1 (proj2 (district_change_evicts_new_filter_key sample_number_to_string _ _ _ H))).
Defined.

(** C5: the list cached under the old filter's key ("all-ab") stays. *)
Lemma district_change_keeps_old_filter_key :
  exists st', handleDistrictChange "D1" cached_school_state = Ok st'
              /\ selectedDistrict cached_school_state = None
              /\ schoolCache st' !! "all-ab" = Some [].
Proof. eexists. solve_concrete. Qed.

(** C6: the pending search of [pending_school_state] settles. *)
Lemma school_settle_selection_witness :
  exists st', settle sample_number_to_string sample_sort 0 other_lincoln_answer
                (sample_answer 74 []) pending_school_state = Ok st'
    /\ exists res, snd (searchSchools sample_number_to_string "Lincoln" JUndef
                         (net_of false other_lincoln_answer (sample_answer 74 [])))
                    = Fulfilled res
                    /\ schools st' = res.
Proof.
  assert (Hp : find (fun p => Nat.eqb (p_id p) 0) (inflight pending_school_state)
               = Some lincoln_pending) by (vm_compute; reflexivity).
  assert (Hq : p_query lincoln_pending
               = QSchool "Lincoln" JUndef "all-Lincoln" (Some selected_lincoln)) by reflexivity.
  assert (Hres : exists res,
            snd (searchSchools sample_number_to_string "Lincoln" JUndef
                   (net_of (p_aborted lincoln_pending) other_lincoln_answer (sample_answer 74 [])))
            = Fulfilled res) by (eexists; vm_compute; reflexivity).
  destruct Hres as [res Hres].
  assert (Hid : truthy (School.NCESSCH selected_lincoln) = true) by reflexivity.
  assert (Hstep : exists st', settle sample_number_to_string sample_sort 0 other_lincoln_answer
                                (sample_answer 74 []) pending_school_state = Ok st')
    by (eexists; vm_compute; reflexivity).
  destruct Hstep as [st' Hstep].
  destruct (school_settle_selection sample_number_to_string sample_sort _ _ _ _ _ _ _ _ _ _ _
              Hp Hq Hres Hid Hstep) as [Hs _].
  exists st'. split; [exact Hstep|]. exists res. split; [exact Hres|exact Hs].
Defined.

(** C6: a selected school with identifier "5" is kept when the new
    results only hold a school with identifier "6" and the same name and
    city. *)
Lemma selection_kept_with_other_identifier :
  exists st' x,
    settle sample_number_to_string sample_sort 0 other_lincoln_answer
      (sample_answer 74 []) pending_school_state = Ok st'
    /\ schools st' = [x]
    /\ School.NCESSCH x = JStr "6"
    /\ School.NCESSCH selected_lincoln = JStr "5"
    /\ selectedSchool st' = Some selected_lincoln.
Proof. do 2 eexists. solve_concrete. Qed.

(** C7: the empty attribute object is normalized, and so is a district
    named by [DISTRICT] whose [LEAID] has an own [toString] key (its
    label is not built); that district's name is copied. *)
Lemma normalizers_total_on_objects_witness :
  (exists r, normalizeSchoolAttributes (JObj 1 []) JUndef = Ok r)
  /\ (exists r, normalizeDistrictAttributes sample_number_to_string
                 (JObj 1 [("DISTRICT", JStr "Abbey"); ("LEAID", JObj 2 [("toString", JNum 1)])])
               = Ok r
               /\ District.NAME r = JStr "Abbey").
Proof.
  pose proof (normalizers_total_on_objects sample_number_to_string)
    as (Hs & Hd & _ & _ & _ & _ & _ & Hrules).
  split; [apply Hs; discriminate|].
  assert (Hr : exists r, normalizeDistrictAttributes sample_number_to_string
                 (JObj 1 [("DISTRICT", JStr "Abbey"); ("LEAID", JObj 2 [("toString", JNum 1)])])
               = Ok r).
  { apply Hd; [discriminate|discriminate|]. left. exists "DISTRICT", (JStr "Abbey").
    split; [left; reflexivity|]. split; reflexivity. }
  destruct Hr as [r Hr]. exists r. split; [exact Hr|].
  destruct (Hrules _ _ Hr) as [Hf _]. unfold obeys_rules, district_field_rules in Hf.
  do 2 apply List.Forall_inv_tail in Hf. apply List.Forall_inv in Hf.
  destruct Hf as [Hcopy _].
  exact (Hcopy [] "DISTRICT" ["LEA_NAME"; "LEANM"] (JStr "Abbey") eq_refl
           (List.Forall_nil _) eq_refl eq_refl).
Defined.

(** C7: [null] and [undefined] attributes throw, and so does a district
    [LEAID] with an own [toString] key. *)
Lemma normalizers_throw_on_null :
  normalizeSchoolAttributes JNull JUndef = Throw TypeError
  /\ normalizeDistrictAttributes sample_number_to_string JUndef = Throw TypeError
  /\ normalizeDistrictAttributes sample_number_to_string
       (JObj 1 [("LEAID", JObj 2 [("toString", JNum 1)])]) = Throw TypeError.
Proof. solve_concrete. Qed.

(** C8: a school with a latitude attribute and a geometry point. *)
Lemma school_coordinates_resolution_witness :
  exists r, normalizeSchoolAttributes lat_only_attrs sample_point = Ok r
            /\ exists lat0 lon0, school_lat_attr lat_only_attrs = Ok lat0
                                 /\ school_lon_attr lat_only_attrs = Ok lon0.
Proof.
  assert (H : exists r, normalizeSchoolAttributes lat_only_attrs sample_point = Ok r)
    by (eexists; vm_compute; reflexivity).
  destruct H as [r H]. exists r. split; [exact H|].
  destruct (school_coordinates_resolution _ _ _ H) as [lat0 [lon0 [E1 [E2 _]]]].
  exists lat0, lon0. split; assumption.
Defined.

(** C8: the latitude attribute 40 is replaced by the geometry's 41
    because the longitude attribute is missing. *)
Lemma geometry_overrides_attribute_latitude :
  exists r, normalizeSchoolAttributes lat_only_attrs sample_point = Ok r
            /\ get lat_only_attrs "LAT" = Ok (JNum 40)
            /\ School.LAT r = JNum 41.
Proof. eexists. solve_concrete. Qed.

(* ------------------------------------------------------------------ *)
(** ** Instances of the further properties *)

Lemma sample_sort_permutes (l l' : list District.t) :
  sample_sort l = Ok l' -> Permutation l l'.
Proof. intros H. injection H as <-. reflexivity. Qed.

Local Abbreviation sample_run evs := (run sample_number_to_string sample_sort initial_home evs).
Local Abbreviation sample_reached evs := (reached sample_number_to_string sample_sort evs).

(** The text "ab" becomes "abc" and then "abcd" within 600 ms of the
    first change: the debounced value is still the mounted one. *)
Lemma debounce_holds_back_witness :
  String.eqb "ab" "a" = false /\ (elapsed [DElapse 300; DRender "abc"; DElapse 200] < 700)%N
  /\ deb_debounced (debounce_run 700 (debounce_mount 700 "a")
                     [DRender "ab"; DElapse 300; DRender "abc"; DElapse 200])
     = deb_debounced (debounce_mount 700 "a").
Proof.
  assert (Hnew : String.eqb "ab" "a" = false) by reflexivity.
  assert (Hshort : (elapsed [DElapse 300; DRender "abc"; DElapse 200] < 700)%N)
    by (vm_compute; reflexivity).
  split; [exact Hnew|]. split; [exact Hshort|].
  exact (debounce_holds_back 700 (debounce_mount 700 "a") "ab" _ Hnew Hshort).
Defined.

(** After typing "ab" and a 700 ms pause, "ab" is published. *)
Lemma debounce_publishes_witness :
  (700 <= 700)%N
  /\ deb_debounced (debounce_run 700 (debounce_mount 700 "") ([DRender "ab"; DElapse 100] ++ [DElapse 700]))
     = deb_value (debounce_run 700 (debounce_mount 700 "") ([DRender "ab"; DElapse 100] ++ [DElapse 700])).
Proof.
  assert (Hdt : (700 <= 700)%N) by (vm_compute; discriminate).
  split; [exact Hdt|]. exact (debounce_publishes 700 "" _ 700 Hdt).
Defined.

(** A school listed twice keeps one record with its identifier. *)
Lemma unique_schools_keeps_every_identifier_witness :
  In selected_lincoln [selected_lincoln; selected_lincoln]
  /\ truthy (School.NCESSCH selected_lincoln) = true
  /\ exists y, In y (unique_schools [selected_lincoln; selected_lincoln])
               /\ strict_eq (School.NCESSCH y) (School.NCESSCH selected_lincoln) = true.
Proof.
  assert (Hx : In selected_lincoln [selected_lincoln; selected_lincoln]) by (left; reflexivity).
  assert (Hid : truthy (School.NCESSCH selected_lincoln) = true) by reflexivity.
  split; [exact Hx|]. split; [exact Hid|].
  exact (unique_schools_keeps_every_identifier _ _ Hx Hid).
Defined.

(** The search for "ab" answered with Abbey and Birch by one service
    and Abbey again by the other: two districts, "0601" and "0602". *)
Lemma searchSchoolDistricts_distinct_leaids_witness :
  exists res,
    snd (searchSchoolDistricts sample_number_to_string sample_sort "ab"
           (two_sources (sample_answer 20 [abbey_feature; birch_feature])
                        (sample_answer 22 [abbey_twin_feature])))
    = Fulfilled res
    /\ map District.LEAID res = [JStr "0601"; JStr "0602"]
    /\ distinct_leaids res.
Proof.
  assert (Hr : exists res,
            snd (searchSchoolDistricts sample_number_to_string sample_sort "ab"
                   (two_sources (sample_answer 20 [abbey_feature; birch_feature])
                                (sample_answer 22 [abbey_twin_feature])))
            = Fulfilled res /\ map District.LEAID res = [JStr "0601"; JStr "0602"])
    by (eexists; split; vm_compute; reflexivity).
  destruct Hr as (res & Hr & Hl). exists res. split; [exact Hr|]. split; [exact Hl|].
  exact (searchSchoolDistricts_distinct_leaids _ _ sample_sort_permutes _ _ _ Hr).
Defined.

(** After [two_district_searches] the search for "abc" is live and is
    the one the district cleanup aborts. *)
Lemma live_search_is_cleanup_target_witness :
  sample_run two_district_searches = Ok (sample_reached two_district_searches)
  /\ In (mkPending 1 (QDistrict "abc") false) (inflight (sample_reached two_district_searches))
  /\ districtCleanup (sample_reached two_district_searches) = Some 1.
Proof.
  assert (H : sample_run two_district_searches = Ok (sample_reached two_district_searches))
    by (vm_compute; reflexivity).
  assert (Hp : In (mkPending 1 (QDistrict "abc") false)
                 (inflight (sample_reached two_district_searches))) by (vm_compute; auto).
  split; [exact H|]. split; [exact Hp|].
  exact (live_search_is_cleanup_target _ _ _ _ _ H Hp eq_refl).
Defined.

(** After [two_district_searches] the only live district search is the
    one for "abc". *)
Lemma one_live_search_per_field_witness :
  sample_run two_district_searches = Ok (sample_reached two_district_searches)
  /\ In (mkPending 1 (QDistrict "abc") false) (inflight (sample_reached two_district_searches))
  /\ mkPending 1 (QDistrict "abc") false = mkPending 1 (QDistrict "abc") false.
Proof.
  assert (H : sample_run two_district_searches = Ok (sample_reached two_district_searches))
    by (vm_compute; reflexivity).
  assert (Hp : In (mkPending 1 (QDistrict "abc") false)
                 (inflight (sample_reached two_district_searches))) by (vm_compute; auto).
  split; [exact H|]. split; [exact Hp|].
  exact (one_live_search_per_field _ _ _ _ _ _ H Hp Hp eq_refl eq_refl eq_refl).
Defined.

(** After [two_district_searches] the district spinner is on, with
    searches in flight. *)
Lemma spinner_implies_search_in_flight_witness :
  sample_run two_district_searches = Ok (sample_reached two_district_searches)
  /\ loadingDistricts (sample_reached two_district_searches) = true
  /\ exists p, In p (inflight (sample_reached two_district_searches))
               /\ is_district_query (p_query p) = true.
Proof.
  assert (H : sample_run two_district_searches = Ok (sample_reached two_district_searches))
    by (vm_compute; reflexivity).
  assert (Hl : loadingDistricts (sample_reached two_district_searches) = true)
    by (vm_compute; reflexivity).
  split; [exact H|]. split; [exact Hl|].
  exact (proj1 (spinner_implies_search_in_flight _ _ _ _ H) Hl).
Defined.

(** The aborted search for "ab" settles: the spinner goes off while
    the search for "abc" is still in flight. *)
Lemma district_settle_stops_spinner_witness :
  sample_run two_district_searches = Ok (sample_reached two_district_searches)
  /\ In (mkPending 0 (QDistrict "ab") true) (inflight (sample_reached two_district_searches))
  /\ settle sample_number_to_string sample_sort 0 (sample_answer 20 [abbey_feature])
       (sample_answer 22 []) (sample_reached two_district_searches)
     = Ok (sample_reached (two_district_searches
                           ++ [Settle 0 (sample_answer 20 [abbey_feature]) (sample_answer 22 [])]))
  /\ loadingDistricts (sample_reached (two_district_searches
                           ++ [Settle 0 (sample_answer 20 [abbey_feature]) (sample_answer 22 [])]))
     = false
  /\ In (mkPending 1 (QDistrict "abc") false)
        (inflight (sample_reached (two_district_searches
                           ++ [Settle 0 (sample_answer 20 [abbey_feature]) (sample_answer 22 [])]))).
Proof.
  assert (H : sample_run two_district_searches = Ok (sample_reached two_district_searches))
    by (vm_compute; reflexivity).
  assert (Hp : In (mkPending 0 (QDistrict "ab") true)
                 (inflight (sample_reached two_district_searches))) by (vm_compute; auto).
  assert (Hq : In (mkPending 1 (QDistrict "abc") false)
                 (inflight (sample_reached two_district_searches))) by (vm_compute; auto).
  assert (Hs : settle sample_number_to_string sample_sort 0 (sample_answer 20 [abbey_feature])
                 (sample_answer 22 []) (sample_reached two_district_searches)
               = Ok (sample_reached (two_district_searches
                       ++ [Settle 0 (sample_answer 20 [abbey_feature]) (sample_answer 22 [])])))
    by (vm_compute; reflexivity).
  destruct (district_settle_stops_spinner _ _ _ _ _ _ _ _ H Hp eq_refl Hs) as [Hl Hk].
  split; [exact H|]. split; [exact Hp|]. split; [exact Hs|]. split; [exact Hl|].
  apply Hk; [exact Hq|discriminate].
Defined.

(** After [abbey_birch_answers] the list shows Abbey once and Birch;
    the search for "toString" crashes the page instead (no state). *)
Lemma shown_districts_distinct_witness :
  sample_run abbey_birch_answers = Ok (sample_reached abbey_birch_answers)
  /\ map District.LEAID (districts (sample_reached abbey_birch_answers))
     = [JStr "0601"; JStr "0602"]
  /\ distinct_leaids (districts (sample_reached abbey_birch_answers))
  /\ sample_run inherited_member_search = Throw TypeError.
Proof.
  assert (H : sample_run abbey_birch_answers = Ok (sample_reached abbey_birch_answers))
    by (vm_compute; reflexivity).
  split; [exact H|]. split; [vm_compute; reflexivity|]. split; [|vm_compute; reflexivity].
  exact (shown_districts_distinct _ _ sample_sort_permutes _ _ H).
Defined.

(** Choosing the option "0601" after [abbey_answers] selects Abbey. *)
Lemma district_option_round_trip_witness :
  sample_run abbey_answers = Ok (sample_reached abbey_answers)
  /\ In abbey_district (districts (sample_reached abbey_answers))
  /\ district_option_value sample_number_to_string abbey_district = Ok "0601"
  /\ handleDistrictChange "0601" (sample_reached abbey_answers)
     = Ok (sample_reached (abbey_answers ++ [DistrictChange "0601"]))
  /\ selectedDistrict (sample_reached (abbey_answers ++ [DistrictChange "0601"]))
     = Some abbey_district.
Proof.
  assert (H : sample_run abbey_answers = Ok (sample_reached abbey_answers))
    by (vm_compute; reflexivity).
  assert (Hd : In abbey_district (districts (sample_reached abbey_answers)))
    by (vm_compute; auto).
  assert (Hv : district_option_value sample_number_to_string abbey_district = Ok "0601")
    by (vm_compute; reflexivity).
  assert (Hc : handleDistrictChange "0601" (sample_reached abbey_answers)
               = Ok (sample_reached (abbey_answers ++ [DistrictChange "0601"])))
    by (vm_compute; reflexivity).
  split; [exact H|]. split; [exact Hd|]. split; [exact Hv|]. split; [exact Hc|].
  apply (district_option_round_trip _ _ sample_sort_permutes _ _ _ _ _ H Hd Hv Hc).
  exists "0601". reflexivity.
Defined.

(** After [abbey_answers] the cache holds "ab". *)
Lemma district_cache_keys_witness :
  sample_run abbey_answers = Ok (sample_reached abbey_answers)
  /\ districtCache (sample_reached abbey_answers) !! "ab" = Some [abbey_district]
  /\ too_short "ab" = false /\ trim "ab" = "ab".
Proof.
  assert (H : sample_run abbey_answers = Ok (sample_reached abbey_answers))
    by (vm_compute; reflexivity).
  assert (Hl : districtCache (sample_reached abbey_answers) !! "ab" = Some [abbey_district])
    by (vm_compute; reflexivity).
  split; [exact H|]. split; [exact Hl|].
  exact (district_cache_keys _ _ _ _ _ _ H Hl).
Defined.

(** The search for "ab" settles; the text " ab " is then served from the
    cache. *)
Lemma district_cache_round_trip_witness :
  let o1 := sample_answer 20 [abbey_feature] in
  let o2 := sample_answer 22 [] in
  let pre := [DebounceDistrict "ab"; DistrictEffect] in
  sample_run pre = Ok (sample_reached pre)
  /\ In (mkPending 0 (QDistrict "ab") false) (inflight (sample_reached pre))
  /\ snd (searchSchoolDistricts sample_number_to_string sample_sort "ab" (net_of false o1 o2))
     = Fulfilled [abbey_district]
  /\ settle sample_number_to_string sample_sort 0 o1 o2 (sample_reached pre)
     = Ok (sample_reached (pre ++ [Settle 0 o1 o2]))
  /\ trim " ab " = "ab"
  /\ district_effect
       (set_debouncedDistrictQuery " ab " (sample_reached (pre ++ [Settle 0 o1 o2])))
     = Ok (sample_reached (pre ++ [Settle 0 o1 o2; DebounceDistrict " ab "; DistrictEffect]))
  /\ districts (sample_reached (pre ++ [Settle 0 o1 o2; DebounceDistrict " ab "; DistrictEffect]))
     = [abbey_district].
Proof.
  intros o1 o2 pre.
  assert (H : sample_run pre = Ok (sample_reached pre)) by (vm_compute; reflexivity).
  assert (Hp : In (mkPending 0 (QDistrict "ab") false) (inflight (sample_reached pre)))
    by (vm_compute; auto).
  assert (Hres : snd (searchSchoolDistricts sample_number_to_string sample_sort "ab"
                        (net_of false o1 o2)) = Fulfilled [abbey_district])
    by (vm_compute; reflexivity).
  assert (Hs : settle sample_number_to_string sample_sort 0 o1 o2 (sample_reached pre)
               = Ok (sample_reached (pre ++ [Settle 0 o1 o2]))) by (vm_compute; reflexivity).
  assert (Ht : trim " ab " = "ab") by reflexivity.
  assert (He : district_effect
                 (set_debouncedDistrictQuery " ab " (sample_reached (pre ++ [Settle 0 o1 o2])))
               = Ok (sample_reached (pre ++ [Settle 0 o1 o2; DebounceDistrict " ab "; DistrictEffect])))
    by (vm_compute; reflexivity).
  do 6 (split; [assumption|]).
  exact (proj1 (district_cache_round_trip _ _ _ _ _ _ _ _ _ _ _ _ H Hp eq_refl Hres Hs Ht He)).
Defined.

(** After [lincoln_answers] the school list holds no duplicate pair. *)
Lemma shown_schools_no_duplicates_witness :
  sample_run lincoln_answers = Ok (sample_reached lincoln_answers)
  /\ ForallOrdPairs (fun x y => ~ same_school_pair x y) (schools (sample_reached lincoln_answers)).
Proof.
  assert (H : sample_run lincoln_answers = Ok (sample_reached lincoln_answers))
    by (vm_compute; reflexivity).
  split; [exact H|]. exact (shown_schools_no_duplicates _ _ _ _ H).
Defined.
